(** * A shallow embedding of scripts/build-dbt.py

    The release script of dbt: it bumps the version, builds the PyPI
    packages of the main package and its plugins, uploads them to the test
    index and then to PyPI, and writes, tests and commits a Homebrew
    formula for the new version.

    Strings are Stdlib [string]s of ASCII characters.  The file system is
    a stdpp [gmap] from paths (lists of path components) to nodes.  Every
    external process, the interactive [input] prompt and the creation of
    the virtual environment are answered by an oracle: theorems about the
    pipeline quantify over all oracles. *)

From stdpp Require Import base gmap strings list.
From Stdlib Require Import Ascii String Decimal DecimalNat.

Open Scope string_scope.

(* ------------------------------------------------------------------ *)
(** ** Characters and string helpers *)

Definition is_digit (c : ascii) : bool :=
  let n := nat_of_ascii c in ((48 <=? n) && (n <=? 57))%nat.

(** [[a-z]] of [VERSION_PATTERN]. *)
Definition is_lower (c : ascii) : bool :=
  let n := nat_of_ascii c in ((97 <=? n) && (n <=? 122))%nat.

Definition is_upper (c : ascii) : bool :=
  let n := nat_of_ascii c in ((65 <=? n) && (n <=? 90))%nat.

Definition is_alpha (c : ascii) : bool := is_lower c || is_upper c.

Definition is_alnum (c : ascii) : bool := is_alpha c || is_digit c.

Definition upper (c : ascii) : ascii :=
  if is_lower c then ascii_of_nat ((nat_of_ascii c - 32)%nat) else c.

Definition lower (c : ascii) : ascii :=
  if is_upper c then ascii_of_nat ((nat_of_ascii c + 32)%nat) else c.

(** The longest prefix of [s] whose characters satisfy [p], and the rest
    (a greedy [p+] or [p*] of a regular expression). *)
Fixpoint span (p : ascii -> bool) (s : string) : string * string :=
  match s with
  | EmptyString => (EmptyString, EmptyString)
  | String c r =>
      if p c then let '(a, b) := span p r in (String c a, b)
      else (EmptyString, s)
  end.

Fixpoint all_chars (p : ascii -> bool) (s : string) : bool :=
  match s with
  | EmptyString => true
  | String c r => p c && all_chars p r
  end.

Definition starts_with (p : ascii -> bool) (s : string) : bool :=
  match s with
  | EmptyString => false
  | String c _ => p c
  end.

(** [str.title()] on ASCII text: a cased character is upper-cased when it
    follows an uncased one, lower-cased otherwise. *)
Fixpoint title_aux (prev_cased : bool) (s : string) : string :=
  match s with
  | EmptyString => EmptyString
  | String c r =>
      if is_alpha c then
        String (if prev_cased then lower c else upper c) (title_aux true r)
      else String c (title_aux false r)
  end.

Definition title (s : string) : string := title_aux false s.

(* ------------------------------------------------------------------ *)
(** ** Python [int(...)] on a digit string and [str(...)] on an int *)

Definition digit_of_char (c : ascii) (d : uint) : uint :=
  match (nat_of_ascii c - 48)%nat with
  | 0 => D0 d | 1 => D1 d | 2 => D2 d | 3 => D3 d | 4 => D4 d
  | 5 => D5 d | 6 => D6 d | 7 => D7 d | 8 => D8 d | _ => D9 d
  end.

(** A string of ASCII digits as a decimal numeral. *)
Fixpoint uint_of_digits (s : string) : uint :=
  match s with
  | EmptyString => Nil
  | String c r => digit_of_char c (uint_of_digits r)
  end.

Fixpoint digits_of_uint (d : uint) : string :=
  match d with
  | Nil => EmptyString
  | D0 r => String "0" (digits_of_uint r)
  | D1 r => String "1" (digits_of_uint r)
  | D2 r => String "2" (digits_of_uint r)
  | D3 r => String "3" (digits_of_uint r)
  | D4 r => String "4" (digits_of_uint r)
  | D5 r => String "5" (digits_of_uint r)
  | D6 r => String "6" (digits_of_uint r)
  | D7 r => String "7" (digits_of_uint r)
  | D8 r => String "8" (digits_of_uint r)
  | D9 r => String "9" (digits_of_uint r)
  end.

(** [int(s)] for a string of ASCII digits (leading zeros allowed). *)
Definition py_int (s : string) : nat := Nat.of_uint (uint_of_digits s).

(** [str(n)] for a non-negative int: its canonical decimal numeral. *)
Definition py_str (n : nat) : string := digits_of_uint (Nat.to_uint n).

(* ------------------------------------------------------------------ *)
(** ** [VERSION_PATTERN.match] *)

(** The named groups of a successful match, as [groupdict()] gives them;
    the optional [prerelease] and [num] groups are [None] when the
    optional group did not take part in the match. *)
Record groups := mk_groups {
  g_major : string;
  g_minor : string;
  g_patch : string;
  g_prerelease : option string;
  g_num : option string;
}.

(** [\d+], greedy. *)
Definition match_digits (s : string) : option (string * string) :=
  let '(d, r) := span is_digit s in
  match d with EmptyString => None | _ => Some (d, r) end.

(** [((?P<prerelease>[a-z]+)(?P<num>\d+))?], greedy: the group is taken
    when a run of lower-case letters is followed by a digit. *)
Definition match_pre (s : string)
    : option string * option string * string :=
  let '(tag, r) := span is_lower s in
  match tag with
  | EmptyString => (None, None, s)
  | _ =>
      match match_digits r with
      | Some (n, r') => (Some tag, Some n, r')
      | None => (None, None, s)
      end
  end.

(** [\.]. *)
Definition match_dot (s : string) : option string :=
  match s with
  | String c r => if Ascii.eqb c "."%char then Some r else None
  | EmptyString => None
  end.

(** [re.match] of
    [(?P<major>\d+)\.(?P<minor>\d+)\.(?P<patch>\d+)((?P<prerelease>[a-z]+)(?P<num>\d+))?]:
    anchored at the start only; it returns the groups and the unmatched
    rest of the string, or [None] when the pattern does not match. *)
Definition VERSION_PATTERN_match (s : string) : option (groups * string) :=
  match match_digits s with
  | None => None
  | Some (ma, r0) =>
      match match_dot r0 with
      | None => None
      | Some r1 =>
          match match_digits r1 with
          | None => None
          | Some (mi, r2) =>
              match match_dot r2 with
              | None => None
              | Some r3 =>
                  match match_digits r3 with
                  | None => None
                  | Some (pa, r4) =>
                      let '(pre, num, r5) := match_pre r4 in
                      Some (mk_groups ma mi pa pre num, r5)
                  end
              end
          end
      end
  end.

(* ------------------------------------------------------------------ *)
(** ** Python exceptions raised by the script *)

Inductive exn :=
  | AttributeError (msg : string)
  | ValueError (msg : string)
  | TypeError (msg : string)
  | AssertionError (msg : string)
  | OSError (msg : string)
  | KeyboardInterrupt
  (** [subprocess.CalledProcessError]: exit status, command, and the
      captured output ([stderr] is merged into it by the script). *)
  | CalledProcessError (returncode : nat) (cmd : list string) (output : string).

Inductive result (A : Type) :=
  | Ok (a : A)
  | Err (e : exn).
Arguments Ok {A} a.
Arguments Err {A} e.

(* ------------------------------------------------------------------ *)
(** ** [class Version] *)

Record Version := mk_Version {
  raw : string;
  major : nat;
  minor : nat;
  patch : nat;
  prerelease : option string;
  num : option nat;
}.

(** [Version.__init__]: [VERSION_PATTERN.match(self.raw).groupdict()]
    raises [AttributeError] when [match] returns [None]. *)
Definition Version_init (raw : string) : result Version :=
  match VERSION_PATTERN_match raw with
  | None => Err (AttributeError "'NoneType' object has no attribute 'groupdict'")
  | Some (g, _) =>
      let '(pre, n) :=
        match g_num g with
        | Some n => (g_prerelease g, Some (py_int n))
        | None => (None, None)
        end in
      Ok (mk_Version raw (py_int (g_major g)) (py_int (g_minor g))
            (py_int (g_patch g)) pre n)
  end.

(** [Version.__str__]. *)
Definition Version_str (v : Version) : string := raw v.

Definition homebrew_class_name (v : Version) : string :=
  let name := "DbtAT" ++ py_str (major v) ++ py_str (minor v) ++ py_str (patch v) in
  match prerelease v, num v with
  | Some p, Some n => name ++ title p ++ py_str n
  | _, _ => name
  end.

Definition homebrew_filename (v : Version) : string :=
  let version_str := py_str (major v) ++ "." ++ py_str (minor v) ++ "." ++ py_str (patch v) in
  let version_str :=
    match prerelease v, num v with
    | Some p, Some n => version_str ++ "-" ++ p ++ py_str n
    | _, _ => version_str
    end in
  "dbt@" ++ version_str ++ ".rb".

Definition map_result {A B} (f : A -> B) (r : result A) : result B :=
  match r with Ok a => Ok (f a) | Err e => Err e end.

(* ------------------------------------------------------------------ *)
(** ** The world: file system, trace of effects, oracles *)

(** A [pathlib.Path], as its list of components. *)
Abbreviation path := (list string).

Definition path_str (p : path) : string := String.concat "/" p.

Inductive node :=
  | File (contents : string)
  | Dir.

Abbreviation fsys := (gmap path node).

(** The observable effects of the script, in the order it performs them. *)
Inductive event :=
  | ERun (cmd : list string) (cwd : option path)  (** a subprocess *)
  | EPrompt (msg : string)                         (** [input(msg)] *)
  | EVenv (p : path)                               (** [EnvBuilder.create] *)
  | ERmtree (p : path)
  | EMkdir (p : path)
  | ERmdir (p : path)
  | ERemove (p : path)
  | EWrite (p : path)
  | ECopy (src dst : path).

Record world := mk_world { fs : fsys; trace : list event }.

(** An argument of a subprocess command as the script builds it: a
    [str], a [Path], or (in [set_version]) a [Version] object. *)
Inductive arg :=
  | AStr (s : string)
  | APath (p : path)
  | AVersion (v : Version).

(** Outcome of [Popen] and [communicate]: exit status and merged output,
    or the [OSError] raised when the process cannot be started. *)
Inductive proc_outcome :=
  | Exited (code : nat) (out : string)
  | NotStarted (msg : string).

Section Script.

(** What an external process does: its outcome and the file system it
    leaves behind; it may depend on everything that happened before. *)
Variable run_oracle : world -> list string -> option path -> proc_outcome * fsys.
(** What the operator answers at [input()]; [None] is an interrupt. *)
Variable input_oracle : world -> string -> option string.
(** The library part of [venv.EnvBuilder.create] (directories, python
    executable, [ensurepip]) before its [post_setup] hook. *)
Variable venv_oracle : world -> path -> result fsys.

(* ------------------------------------------------------------------ *)
(** *** A state and exception monad *)

Definition M (A : Type) := world -> result A * world.

Definition ret {A} (a : A) : M A := fun w => (Ok a, w).
Definition raise {A} (e : exn) : M A := fun w => (Err e, w).
Definition bind {A B} (m : M A) (k : A -> M B) : M B :=
  fun w => match m w with
           | (Ok a, w') => k a w'
           | (Err e, w') => (Err e, w')
           end.

Local Notation "x <- m ;; k" := (bind m (fun x => k))
  (at level 100, m at next level, right associativity).
Local Notation "m ;;; k" := (bind m (fun _ => k))
  (at level 100, right associativity).

Definition log (e : event) : M unit :=
  fun w => (Ok tt, mk_world (fs w) (trace w ++ [e])%list).
Definition get_fs : M fsys := fun w => (Ok (fs w), w).
Definition set_fs (f : fsys) : M unit :=
  fun w => (Ok tt, mk_world f (trace w)).

(* ------------------------------------------------------------------ *)
(** *** [os], [shutil], [pathlib] and [tempfile] on the model file system *)

Definition exists_ (f : fsys) (p : path) : bool := bool_decide (is_Some (f !! p)).

Definition is_dir (f : fsys) (p : path) : bool :=
  match f !! p with Some Dir => true | _ => false end.

(** The parent directory exists (the empty path is the current directory). *)
Definition parent_ok (f : fsys) (p : path) : bool :=
  match removelast p with [] => true | q => is_dir f q end.

Definition path_exists (p : path) : M bool := fun w => (Ok (exists_ (fs w) p), w).

(** The error of a system call on [pre ++ rest] that does not find its
    target: the path is resolved component by component, and the first
    ancestor that is not a directory decides between [ENOTDIR] (a file)
    and [ENOENT] (nothing there). *)
Fixpoint walk_error (f : fsys) (pre rest : path) : exn :=
  match rest with
  | c :: ((_ :: _) as r) =>
      let q := (pre ++ [c])%list in
      match f !! q with
      | Some Dir => walk_error f q r
      | Some (File _) => OSError "[Errno 20] Not a directory"
      | None => OSError "[Errno 2] No such file or directory"
      end
  | _ => OSError "[Errno 2] No such file or directory"
  end.

(** The error of a system call that needs [p] to be a directory. *)
Definition not_dir_error (f : fsys) (p : path) : exn :=
  match f !! p with
  | Some (File _) => OSError "[Errno 20] Not a directory"
  | _ => walk_error f [] p
  end.

(** [shutil.rmtree(p)]: removes [p] and everything below it. *)
Definition rmtree (p : path) : M unit :=
  f <- get_fs ;;
  if is_dir f p then
    log (ERmtree p) ;;;
    set_fs (filter (fun kv => ~ (p `prefix_of` kv.1)) f)
  else raise (not_dir_error f p).

(** [os.makedirs(p, exist_ok=True)]: the missing directories are made
    from the outermost one; a file as the last component makes [mkdir]
    raise [FileExistsError], a file as an intermediate component
    [NotADirectoryError]. *)
Fixpoint makedirs_aux (pre rest : path) : M unit :=
  match rest with
  | [] => ret tt
  | c :: r =>
      let q := (pre ++ [c])%list in
      f <- get_fs ;;
      match f !! q with
      | Some (File _) =>
          match r with
          | [] => raise (OSError "[Errno 17] File exists")
          | _ => raise (OSError "[Errno 20] Not a directory")
          end
      | Some Dir => makedirs_aux q r
      | None => log (EMkdir q) ;;; set_fs (<[q := Dir]> f) ;;; makedirs_aux q r
      end
  end.

Definition makedirs (p : path) : M unit := makedirs_aux [] p.

(** [Path.write_text(c)]. *)
Definition write_text (p : path) (c : string) : M unit :=
  f <- get_fs ;;
  if negb (parent_ok f p) then raise (walk_error f [] p)
  else if is_dir f p then raise (OSError "[Errno 21] Is a directory")
  else log (EWrite p) ;;; set_fs (<[p := File c]> f).

(** [os.remove(p)]. *)
Definition os_remove (p : path) : M unit :=
  f <- get_fs ;;
  match f !! p with
  | Some (File _) => log (ERemove p) ;;; set_fs (delete p f)
  | Some Dir => raise (OSError "[Errno 21] Is a directory")
  | None => raise (walk_error f [] p)
  end.

(** [os.rmdir(p)]: only an empty directory. *)
Definition os_rmdir (p : path) : M unit :=
  f <- get_fs ;;
  if is_dir f p then
    if bool_decide (filter (fun kv => p `prefix_of` kv.1 /\ kv.1 <> p) f = ∅)
    then log (ERmdir p) ;;; set_fs (delete p f)
    else raise (OSError "[Errno 39] Directory not empty")
  else raise (not_dir_error f p).

(** The candidate names of [tempfile.mkdtemp()] under [/tmp]. *)
Definition tmp_candidate (n : nat) : path := [""; "tmp"; "tmp" ++ py_str n].

(** No entry is at [p] or below it. *)
Definition tmp_free (f : fsys) (p : path) : bool :=
  bool_decide (filter (fun kv => p `prefix_of` kv.1) f = ∅).

Fixpoint mkdtemp_search (f : fsys) (n fuel : nat) : option path :=
  match fuel with
  | 0 => None
  | S k => if tmp_free f (tmp_candidate n) then Some (tmp_candidate n)
           else mkdtemp_search f (S n) k
  end.

(** [tempfile.mkdtemp()]: a new, empty directory under [/tmp] whose name
    was not in use.  Python draws random names and gives up with
    [FileExistsError] after [TMP_MAX] names in use; the model tries the
    names [tmp<n>] from the length of the trace on, as many as there are
    entries plus one. *)
Definition mkdtemp : M path :=
  fun w =>
    match mkdtemp_search (fs w) (List.length (trace w)) (S (size (fs w))) with
    | Some p => (Ok p, mk_world (<[p := Dir]> (fs w)) (trace w ++ [EMkdir p])%list)
    | None => (Err (OSError "[Errno 17] No usable temporary directory name found"), w)
    end.

(** [shutil.copy(src, dst)]: into [dst] when it is a directory; the
    source is opened first. *)
Definition shutil_copy (src dst : path) : M unit :=
  f <- get_fs ;;
  match f !! src with
  | Some (File c) =>
      let target := if is_dir f dst then (dst ++ [List.last src ""])%list else dst in
      if negb (parent_ok f target) then raise (walk_error f [] target)
      else if is_dir f target then raise (OSError "[Errno 21] Is a directory")
      else log (ECopy src target) ;;; set_fs (<[target := File c]> f)
  | Some Dir => raise (OSError "[Errno 21] Is a directory")
  | None => raise (walk_error f [] src)
  end.

Fixpoint ends_with (suf s : string) : bool :=
  if String.eqb s suf then true
  else match s with EmptyString => false | String _ r => ends_with suf r end.

(** [Path.glob(pattern)] for a pattern [*suffix]: the entries directly in
    [p] whose name ends with [suffix]. *)
Fixpoint child_name (p q : path) : option string :=
  match p, q with
  | [], [n] => Some n
  | a :: p', b :: q' => if String.eqb a b then child_name p' q' else None
  | _, _ => None
  end.

Definition glob_match (p : path) (suf : string) (q : path) : bool :=
  match child_name p q with Some n => ends_with suf n | None => false end.

Definition glob_suffix (f : fsys) (p : path) (suf : string) : list path :=
  filter (fun q => glob_match p suf q = true) (map fst (map_to_list f)).

Definition _all_packages_in (p : path) : M (list path) :=
  fun w => (Ok (glob_suffix (fs w) p ".tar.gz" ++ glob_suffix (fs w) p ".whl")%list, w).

(* ------------------------------------------------------------------ *)
(** *** [subprocess.check_output] *)

Definition py_str_of_arg (a : arg) : result string :=
  match a with
  | AStr s => Ok s
  | APath p => Ok (path_str p)
  | AVersion _ => Err (TypeError "expected str, bytes or os.PathLike object, not Version")
  end.

Fixpoint args_to_argv (l : list arg) : result (list string) :=
  match l with
  | [] => Ok []
  | a :: r =>
      match py_str_of_arg a, args_to_argv r with
      | Ok s, Ok ss => Ok (s :: ss)
      | Err e, _ => Err e
      | _, Err e => Err e
      end
  end.

(** [subprocess.check_output(cmd, stderr=STDOUT, cwd=cwd)]: every argument
    is converted before the child is started; a non-zero exit raises
    [CalledProcessError] carrying the captured output. *)
Definition check_output (cmd : list arg) (cwd : option path) : M string :=
  match args_to_argv cmd with
  | Err e => raise e
  | Ok argv =>
      fun w =>
        let '(o, f') := run_oracle w argv cwd in
        let w' := mk_world f' (trace w ++ [ERun argv cwd])%list in
        match o with
        | NotStarted msg => (Err (OSError msg), w')
        | Exited 0 out => (Ok out, w')
        | Exited code out => (Err (CalledProcessError code argv out), w')
        end
  end.

(** [input(msg)]. *)
Definition input (msg : string) : M string :=
  fun w =>
    let w' := mk_world (fs w) (trace w ++ [EPrompt msg])%list in
    match input_oracle w msg with
    | Some s => (Ok s, w')
    | None => (Err KeyboardInterrupt, w')
    end.

(* ------------------------------------------------------------------ *)
(** *** The build and upload stages *)

(** [_SUBPACKAGES], each as the path components of [path / subpath]. *)
Definition _SUBPACKAGES : list path :=
  [["core"]; ["plugins"; "postgres"]; ["plugins"; "redshift"];
   ["plugins"; "bigquery"]; ["plugins"; "snowflake"]].

(** The [clean_dist] context manager up to its [yield]. *)
Definition clean_dist (p : path) (make : bool) : M path :=
  let dist_path := (p ++ ["dist"])%list in
  e <- path_exists dist_path ;;
  (if e then rmtree dist_path else ret tt) ;;;
  (if make then makedirs dist_path else ret tt) ;;;
  ret dist_path.

Definition set_version (p : path) (version : arg) (part : string) : M unit :=
  check_output [AStr "bumpversion"; AStr "--commit"; AStr "--no-tag";
                AStr "--new-version"; version; AStr part] (Some p) ;;;
  ret tt.

Definition build_pypi_package (p : path) : M unit :=
  check_output [AStr "python"; AStr "setup.py"; AStr "sdist"; AStr "bdist_wheel"] (Some p) ;;;
  ret tt.

(** The [for path in _SUBPACKAGES] loop of [build_pypi_packages]. *)
Fixpoint build_subpackages (dbt_path : path) (l : list path) (sub_pkgs : list path)
    : M (list path) :=
  match l with
  | [] => ret sub_pkgs
  | sp :: rest =>
      let subpath := (dbt_path ++ sp)%list in
      sub_dist <- clean_dist subpath false ;;
      build_pypi_package subpath ;;;
      pkgs <- _all_packages_in sub_dist ;;
      build_subpackages dbt_path rest (sub_pkgs ++ pkgs)%list
  end.

Fixpoint copy_all (pkgs : list path) (dst : path) : M unit :=
  match pkgs with
  | [] => ret tt
  | p :: rest => shutil_copy p dst ;;; copy_all rest dst
  end.

Definition build_pypi_packages (dbt_path : path) : M path :=
  dist_path <- clean_dist dbt_path false ;;
  sub_pkgs <- build_subpackages dbt_path _SUBPACKAGES [] ;;
  build_pypi_package dbt_path ;;;
  copy_all sub_pkgs dist_path ;;;
  ret dist_path.

Definition upload_pypi_packages (dist_path : path) (test : bool) : M unit :=
  pkgs <- _all_packages_in dist_path ;;
  let cmd := ([AStr "twine"; AStr "upload"]
              ++ (if test then [AStr "--repository"; AStr "pypitest"] else [])
              ++ map (fun p => AStr (path_str p)) pkgs)%list in
  check_output cmd None ;;;
  ret tt.

(* ------------------------------------------------------------------ *)
(** *** The virtual environment and the formula data *)

(** [PoetVirtualenv.post_setup]; [context.env_exe] is [bin/python] of the
    environment.  The [finally] clause removes the temporary directory
    whether or not [pip] succeeded. *)
Definition post_setup (venv_path : path) (dbt_version : Version) : M unit :=
  tmp <- mkdtemp ;;
  let cmd := [APath (venv_path ++ ["bin"; "python"])%list; AStr "-m"; AStr "pip";
              AStr "install"; AStr "--upgrade"; AStr "homebrew-pypi-poet";
              AStr ("dbt==" ++ Version_str dbt_version)] in
  fun w =>
    let '(r, w1) := check_output cmd (Some tmp) w in
    let '(r2, w2) := os_rmdir tmp w1 in
    match r2 with
    | Err e => (Err e, w2)
    | Ok _ => match r with Ok _ => (Ok tt, w2) | Err e => (Err e, w2) end
    end.

(** [env.create(venv_path)] of [venv.EnvBuilder], with the hook. *)
Definition env_create (venv_path : path) (dbt_version : Version) : M unit :=
  fun w =>
    let w' := mk_world (fs w) (trace w ++ [EVenv venv_path])%list in
    match venv_oracle w venv_path with
    | Err e => (Err e, w')
    | Ok f => post_setup venv_path dbt_version (mk_world f (trace w'))
    end.

Definition make_venv (dbt_path : path) (dbt_version : Version) : M path :=
  let build_path := (dbt_path ++ ["build"])%list in
  let venv_path := (build_path ++ ["tmp-venv"])%list in
  makedirs build_path ;;;
  e <- path_exists venv_path ;;
  (if e then rmtree venv_path else ret tt) ;;;
  env_create venv_path dbt_version ;;;
  ret venv_path.

(* ------------------------------------------------------------------ *)
(** *** [_extract_parts] *)

(** The characters [str.strip()] removes, within ASCII. *)
Definition is_py_space (c : ascii) : bool :=
  let n := nat_of_ascii c in ((9 <=? n) && (n <=? 13) || (28 <=? n) && (n <=? 32))%nat.

Fixpoint lstrip (s : string) : string :=
  match s with
  | String c r => if is_py_space c then lstrip r else s
  | EmptyString => EmptyString
  end.

Fixpoint string_rev (s : string) : string :=
  match s with
  | EmptyString => EmptyString
  | String c r => string_rev r ++ String c EmptyString
  end.

Definition strip (s : string) : string := string_rev (lstrip (string_rev (lstrip s))).

Definition newline : ascii := ascii_of_nat 10.

(** [s.split('\n')]. *)
Fixpoint split_nl (s : string) : list string :=
  match s with
  | EmptyString => [EmptyString]
  | String c r =>
      if Ascii.eqb c newline then EmptyString :: split_nl r
      else match split_nl r with
           | l :: ls => String c l :: ls
           | [] => [String c EmptyString]
           end
  end.

Definition dq : string := String (ascii_of_nat 34) EmptyString.

(** The marker line [resource "dbt" do]. *)
Definition resource_dbt_do : string := "resource " ++ dq ++ "dbt" ++ dq ++ " do".

(** The loop of the generator: [collecting] is its state. *)
Fixpoint extract_loop (collecting : bool) (lines : list string) : list string :=
  match lines with
  | [] => []
  | l :: rest =>
      let line := strip l in
      if negb collecting then
        if String.eqb line resource_dbt_do then extract_loop true rest
        else extract_loop false rest
      else if String.eqb line "end" then []
      else line :: extract_loop true rest
  end.

Definition _extract_parts (poet_data : string) : list string :=
  extract_loop false (split_nl poet_data).

(** [url_data, hash_data = ...]: unpacking into two names. *)
Definition unpack2 (l : list string) : result (string * string) :=
  match l with
  | [a; b] => Ok (a, b)
  | a :: b :: _ :: _ => Err (ValueError "too many values to unpack (expected 2)")
  | _ => Err (ValueError ("not enough values to unpack (expected 2, got "
                          ++ py_str (List.length l) ++ ")"))
  end.

(* ------------------------------------------------------------------ *)
(** *** The formula template *)

(** A format string: literal text and [{name}] replacement fields. *)
Inductive fmt_piece :=
  | FLit (s : string)
  | FField (name : string).

(** [str.format] with keyword arguments. *)
Definition format (t : list fmt_piece) (kw : list (string * string)) : string :=
  String.concat ""
    (map (fun p => match p with
                   | FLit s => s
                   | FField n =>
                       match find (fun kv => String.eqb kv.1 n) kw with
                       | Some kv => kv.2
                       | None => ""
                       end
                   end) t).

(** The literal text of the script's templates, with each double quote
    of the Python source written as a backquote (the templates contain no
    backquote of their own). *)
Fixpoint lit (s : string) : string :=
  match s with
  | EmptyString => EmptyString
  | String c r =>
      String (if Ascii.eqb c "`"%char then ascii_of_nat 34 else c) (lit r)
  end.

Definition DBT_HOMEBREW_FORMULA : list fmt_piece := [
  FLit (lit "
class "); FField "formula_name"; FLit (lit " < Formula
  include Language::Python::Virtualenv

  desc `Data build tool`
  homepage `https://github.com/fishtown-analytics/dbt`
  "); FField "url_data"; FLit (lit "
  "); FField "hash_data"; FLit (lit "
  version `"); FField "version"; FLit (lit "`
  revision 1

  depends_on `python3`
  depends_on `openssl`
  depends_on `postgresql`

  bottle do
    root_url `http://bottles.getdbt.com`
    # bottle hashes + versions go here
  end

  "); FField "dependencies"; FLit (lit "

  "); FField "trailer"; FLit (lit "
end
")].

Definition DBT_HOMEBREW_TRAILER : string := lit "
  def install
    venv = virtualenv_create(libexec, `python3`)

    res = resources.map(&:name).to_set

    res.each do |r|
      venv.pip_install resource(r)
    end

    venv.pip_install_and_link buildpath

    bin.install_symlink `#{libexec}/bin/dbt` => `dbt`
  end

  test do
    (testpath/`dbt_project.yml`).write(`{name: 'test', version: '0.0.1', profile: 'default'}`)
    (testpath/`.dbt/profiles.yml`).write(
      `{default: {outputs: {default: {type: 'postgres', threads: 1, host: 'localhost', port: 5432,
      user: 'root', pass: 'password', dbname: 'test', schema: 'test'}}, target: 'default'}}`,
    )
    (testpath/`models/test.sql`).write(`select * from test`)
    system `#{bin}/dbt`, `test`
  end
".

Record DbtHomebrewTemplate := mk_template {
  url_data : string;
  hash_data : string;
  dependencies : string;
  version : Version;
}.

Definition contents (t : DbtHomebrewTemplate) (versioned : bool) : string :=
  let formula_name := if versioned then homebrew_class_name (version t) else "Dbt" in
  format DBT_HOMEBREW_FORMULA
    [("formula_name", formula_name); ("url_data", url_data t);
     ("hash_data", hash_data t); ("version", Version_str (version t));
     ("dependencies", dependencies t); ("trailer", DBT_HOMEBREW_TRAILER)].

(* ------------------------------------------------------------------ *)
(** *** The Homebrew stage *)

Definition lift {A} (r : result A) : M A :=
  match r with Ok a => ret a | Err e => raise e end.

(** [homebrew_formula_template]; [.decode('utf-8')] is the identity on
    the model's strings. *)
Definition homebrew_formula_template (dbt_path : path) (v : Version)
    : M DbtHomebrewTemplate :=
  env_path <- make_venv dbt_path v ;;
  let poet := (env_path ++ ["bin"; "poet"])%list in
  output <- check_output [APath poet; AStr "-s"; AStr "dbt"] None ;;
  parts <- lift (unpack2 (_extract_parts output)) ;;
  let '(url_data, hash_data) := parts in
  deps <- check_output [APath poet; AStr "-r"; AStr "dbt"] None ;;
  ret (mk_template url_data hash_data deps v).

Definition create_homebrew_formula (template : DbtHomebrewTemplate) (v : Version)
    (homebrew_path : path) : M path :=
  let formula_contents := contents template true in
  let homebrew_formula_root := (homebrew_path ++ ["Formula"])%list in
  let homebrew_formula_path := (homebrew_formula_root ++ [homebrew_filename v])%list in
  e <- path_exists homebrew_formula_path ;;
  if e then raise (ValueError "Homebrew formula path already exists!")
  else write_text homebrew_formula_path formula_contents ;;;
       ret homebrew_formula_path.

Definition homebrew_run_tests (formula_path : path) : M unit :=
  check_output [AStr "brew"; AStr "uninstall"; AStr "--force"; APath formula_path] None ;;;
  check_output [AStr "brew"; AStr "install"; APath formula_path] None ;;;
  check_output [AStr "brew"; AStr "test"; AStr "dbt"] None ;;;
  check_output [AStr "brew"; AStr "audit"; AStr "--strict"; AStr "dbt"] None ;;;
  ret tt.

Definition homebrew_commit_formula (formula_path : path) (v : Version)
    (homebrew_path : path) : M unit :=
  check_output [AStr "git"; AStr "add"; APath formula_path] (Some homebrew_path) ;;;
  check_output [AStr "git"; AStr "commit"; AStr "-m"; AStr ("add dbt@" ++ Version_str v)]
    (Some homebrew_path) ;;;
  ret tt.

(** [set_default_homebrew_package]; its last call passes the command's
    words as separate positional arguments of [check_output], so [Popen]
    gets [bufsize='commit'] and raises [TypeError] before starting. *)
Definition set_default_homebrew_package (template : DbtHomebrewTemplate) (v : Version)
    (homebrew_path : path) : M unit :=
  let default_path := (homebrew_path ++ ["Formula"; "dbt.rb"])%list in
  os_remove default_path ;;;
  let formula_contents := contents template false in
  write_text default_path formula_contents ;;;
  check_output [AStr "git"; AStr "add"; APath default_path] (Some homebrew_path) ;;;
  raise (TypeError "bufsize must be an integer").

Definition build_homebrew_package (dbt_path : path) (v : Version)
    (homebrew_path : path) (set_default : bool) : M path :=
  template <- homebrew_formula_template dbt_path v ;;
  formula_path <- create_homebrew_formula template v homebrew_path ;;
  homebrew_run_tests formula_path ;;;
  homebrew_commit_formula formula_path v homebrew_path ;;;
  (if set_default then
     (raise (A := unit) (AssertionError "should not be set!!!")) ;;;
     set_default_homebrew_package template v homebrew_path
   else ret tt) ;;;
  ret formula_path.

(* ------------------------------------------------------------------ *)
(** *** [upgrade_to] *)

Record Arguments := mk_Arguments {
  args_version : Version;
  args_part : string;
  args_path : path;
  args_homebrew_path : path;
  args_homebrew_set_default : bool;
}.

(** Lines 432-444 of [upgrade_to], the stages after the version bump. *)
Definition release_stages (args : Arguments) : M unit :=
  dist_path <- build_pypi_packages (args_path args) ;;
  upload_pypi_packages dist_path true ;;;
  input ("Ensure https://test.pypi.org/project/dbt/" ++ Version_str (args_version args)
         ++ "/ exists and looks reasonable") ;;;
  upload_pypi_packages dist_path false ;;;
  build_homebrew_package (args_path args) (args_version args)
    (args_homebrew_path args) (args_homebrew_set_default args) ;;;
  ret tt.

(** [upgrade_to]: [args.version] is the [Version] object built by
    [argparse] ([type=Version]), and it is passed as is to [set_version]. *)
Definition upgrade_to (args : Arguments) : M unit :=
  set_version (args_path args) (AVersion (args_version args)) (args_part args) ;;;
  release_stages args.

End Script.

(* ------------------------------------------------------------------ *)
(** ** Auxiliary notions and sample inputs *)

Definition digit_run (d : string) : Prop := d <> "" /\ all_chars is_digit d = true.

(** The prerelease suffix of a version string. *)
Definition pre_suffix (pre : option (string * nat)) : string :=
  match pre with Some (t, k) => t ++ py_str k | None => "" end.

Definition valid_pre (pre : option (string * nat)) : Prop :=
  match pre with Some (t, _) => t <> "" /\ all_chars is_lower t = true | None => True end.

Definition no_marker (l : string) : Prop := strip l <> resource_dbt_do.
Definition no_end (l : string) : Prop := strip l <> "end".

Definition sample_resource_block : string :=
  resource_dbt_do ++ String newline ("url " ++ dq ++ "u" ++ dq)
  ++ String newline ("sha256 " ++ dq ++ "h" ++ dq) ++ String newline "end".

(** Oracles under which every process succeeds with output [out] and
    leaves the file system alone, and the library part of the virtual
    environment creation succeeds. *)
Definition ok_run (out : string) : world -> list string -> option path -> proc_outcome * fsys :=
  fun w _ _ => (Exited 0 out, fs w).
Definition ok_venv : world -> path -> result fsys := fun w _ => Ok (fs w).

Definition v0152 : Version := mk_Version "0.15.2" 0 15 2 None None.

Definition block_without_end : string :=
  resource_dbt_do ++ String newline ("url " ++ dq ++ "u" ++ dq)
  ++ String newline ("sha256 " ++ dq ++ "h" ++ dq).

Definition hb_world : world :=
  mk_world (<[["hb"; "Formula"] := Dir]> (<[["hb"] := Dir]> ∅)) [].

Definition sample_template : DbtHomebrewTemplate := mk_template "url" "sha256" "deps" v0152.

(** Every [CalledProcessError] that [m] raises is the one of a process
    whose command satisfies [P]: the last effect is that process, and the
    error carries the exit status and the output the process gave. *)
Definition cpe_only
    (run_oracle : world -> list string -> option path -> proc_outcome * fsys)
    (P : list string -> Prop) {A} (m : M A) : Prop :=
  forall w c a o w', m w = (Err (CalledProcessError c a o), w') ->
    P a /\ exists wc cwd, run_oracle wc a cwd = (Exited c o, fs w') /\
                          trace w' = (trace wc ++ [ERun a cwd])%list.

Definition build_argv : list string := ["python"; "setup.py"; "sdist"; "bdist_wheel"].

(** The build of [plugins/postgres], the second subpackage, fails. *)
Definition postgres_fails : world -> list string -> option path -> proc_outcome * fsys :=
  fun w argv cwd =>
    match cwd with
    | Some ["dbt"; "plugins"; "postgres"] => (Exited 1 "error: invalid command 'bdist_wheel'", fs w)
    | _ => (Exited 0 "", fs w)
    end.

Definition sample_args : Arguments := mk_Arguments v0152 "patch" ["dbt"] ["hb"] false.

Definition without (p : path) (f : fsys) : fsys := filter (fun kv => ~ p `prefix_of` kv.1) f.

(** The build tool run in a directory changes nothing outside it. *)
Definition build_tool_scoped
    (ro : world -> list string -> option path -> proc_outcome * fsys) : Prop :=
  forall w argv cwd k, ~ cwd `prefix_of` k -> (ro w argv (Some cwd)).2 !! k = fs w !! k.

Definition failing_build (w : world) (argv : list string) (cwd : option path) : proc_outcome * fsys :=
  (Exited 1 "error: invalid command", fs w).

Definition dist_world : world :=
  mk_world {[ ["dbt"] := Dir; ["dbt"; "dist"] := Dir;
              ["dbt"; "dist"; "dbt-0.15.2.tar.gz"] := File "old" ]} [].

(** [m] only appends events satisfying [Q] to the trace. *)
Definition grows (Q : event -> Prop) {A} (m : M A) : Prop :=
  forall w r w', m w = (r, w') -> exists l, trace w' = (trace w ++ l)%list /\ Forall Q l.

(** The events that replace a file: its removal and its writing. *)
Definition keeps (p : path) (e : event) : Prop :=
  match e with ERemove q | EWrite q => q <> p | _ => True end.

(** The subprocesses of a piece of trace: command and working directory. *)
Fixpoint runs_of (l : list event) : list (list string * option path) :=
  match l with
  | [] => []
  | ERun a c :: r => (a, c) :: runs_of r
  | _ :: r => runs_of r
  end.

(** The events other than subprocesses. *)
Definition no_run (e : event) : Prop :=
  match e with ERun _ _ => False | _ => True end.

(** The events of the release up to the operator's confirmation: the
    builds, the upload to the test index, the prompt, and the cleaning
    and filling of the [dist] directories. *)
Definition before_confirm (e : event) : Prop :=
  match e with
  | ERun argv _ =>
      argv = build_argv \/
      exists pkgs, argv = ("twine" :: "upload" :: "--repository" :: "pypitest" :: pkgs)%list
  | EPrompt _ | ERmtree _ | ECopy _ _ => True
  | _ => False
  end.

(* ================================================================== *)
(** * Properties *)

(* ------------------------------------------------------------------ *)
(** ** Strings *)

(** stdpp makes [append] opaque to [simpl]; its two equations. *)
Lemma str_app_nil_l (a : string) : "" ++ a = a.
Proof. reflexivity. Qed.

Lemma str_app_cons (x : ascii) (a b : string) : String x a ++ b = String x (a ++ b).
Proof. reflexivity. Qed.

Lemma str_app_assoc (a b c : string) : (a ++ b) ++ c = a ++ (b ++ c).
Proof. induction a as [|x a IH]; [reflexivity|]. rewrite !str_app_cons. now f_equal. Qed.

Lemma str_app_nil_r (a : string) : a ++ "" = a.
Proof. induction a as [|x a IH]; [reflexivity|]. rewrite str_app_cons. now f_equal. Qed.

Lemma all_chars_app (p : ascii -> bool) (a b : string) :
  all_chars p (a ++ b) = all_chars p a && all_chars p b.
Proof.
  induction a as [|x a IH]; [reflexivity|]. rewrite str_app_cons. simpl.
  now rewrite IH, andb_assoc.
Qed.

Lemma all_chars_impl (p q : ascii -> bool) (s : string) :
  (forall c, p c = true -> q c = true) -> all_chars p s = true -> all_chars q s = true.
Proof.
  intros Hpq. induction s as [|c s IH]; simpl; [reflexivity|].
  intros [Hc Hs]%andb_true_iff. now rewrite (Hpq c Hc), IH.
Qed.

Lemma span_app (p : ascii -> bool) (a b : string) :
  all_chars p a = true -> starts_with p b = false -> span p (a ++ b) = (a, b).
Proof.
  induction a as [|x a IH]; intros Ha Hb.
  - destruct b as [|y b]; simpl in *; [reflexivity|]. now rewrite Hb.
  - rewrite str_app_cons. simpl in *.
    apply andb_true_iff in Ha as [Hx Ha]. now rewrite Hx, IH.
Qed.

Lemma span_spec (p : ascii -> bool) (s a b : string) :
  span p s = (a, b) ->
  s = a ++ b /\ all_chars p a = true /\ starts_with p b = false.
Proof.
  revert a b. induction s as [|c s IH]; simpl; intros a b H.
  - inversion H; subst. auto.
  - destruct (p c) eqn:Hc.
    + destruct (IH _ _ (surjective_pairing (span p s))) as (Hs & Ha & Hb).
      destruct (span p s) as [a' b']. inversion H; subst.
      rewrite str_app_cons. simpl. rewrite Hc. auto.
    + inversion H; subst. simpl. auto.
Qed.

(* ------------------------------------------------------------------ *)
(** ** Characters *)

Ltac ascii_cases c :=
  destruct c as [[] [] [] [] [] [] [] []]; vm_compute; try reflexivity; try discriminate.

Lemma lower_not_digit (c : ascii) : is_lower c = true -> is_digit c = false.
Proof. ascii_cases c. Qed.

Lemma alpha_upper (c : ascii) : is_alpha c = true -> is_alpha (upper c) = true.
Proof. ascii_cases c. Qed.

Lemma alpha_lower (c : ascii) : is_alpha c = true -> is_alpha (lower c) = true.
Proof. ascii_cases c. Qed.

Lemma lower_alpha (c : ascii) : is_lower c = true -> is_alpha c = true.
Proof. unfold is_alpha. now intros ->. Qed.

Lemma digit_alnum (c : ascii) : is_digit c = true -> is_alnum c = true.
Proof. unfold is_alnum. intros ->. apply orb_true_r. Qed.

Lemma alpha_alnum (c : ascii) : is_alpha c = true -> is_alnum c = true.
Proof. unfold is_alnum. now intros ->. Qed.

Lemma title_aux_alpha (b : bool) (s : string) :
  all_chars is_alpha s = true -> all_chars is_alpha (title_aux b s) = true.
Proof.
  revert b. induction s as [|c s IH]; simpl; intros b; [reflexivity|].
  intros [Hc Hs]%andb_true_iff. rewrite Hc. simpl.
  apply andb_true_iff. split; [|now apply IH].
  destruct b; [apply alpha_lower | apply alpha_upper]; exact Hc.
Qed.

(* ------------------------------------------------------------------ *)
(** ** Decimal numerals *)

Lemma uint_of_digits_of_uint (u : uint) : uint_of_digits (digits_of_uint u) = u.
Proof. induction u; simpl; rewrite ?IHu; reflexivity. Qed.

Lemma py_int_py_str (n : nat) : py_int (py_str n) = n.
Proof.
  unfold py_int, py_str. rewrite uint_of_digits_of_uint. apply Unsigned.of_to.
Qed.

Lemma py_str_digits (n : nat) : all_chars is_digit (py_str n) = true.
Proof. unfold py_str. induction (Nat.to_uint n); simpl; auto. Qed.

Lemma py_str_nonempty (n : nat) : py_str n <> "".
Proof.
  unfold py_str. intros H.
  assert (Hu : Nat.to_uint n = Nil) by (destruct (Nat.to_uint n); easy).
  assert (n = 0) as -> by (rewrite <- (Unsigned.of_to n), Hu; reflexivity).
  discriminate.
Qed.

Lemma py_str_first_digit (n : nat) (r : string) :
  starts_with is_lower (py_str n ++ r) = false.
Proof.
  pose proof (py_str_nonempty n) as Hne. pose proof (py_str_digits n) as Hd.
  destruct (py_str n) as [|c s]; [congruence|]. simpl in *.
  apply andb_true_iff in Hd as [Hc _].
  destruct (is_lower c) eqn:Hl; [|reflexivity].
  now rewrite (lower_not_digit c Hl) in Hc.
Qed.

(* ------------------------------------------------------------------ *)
(** ** [VERSION_PATTERN] *)

Lemma match_digits_app (d r : string) :
  d <> "" -> all_chars is_digit d = true -> starts_with is_digit r = false ->
  match_digits (d ++ r) = Some (d, r).
Proof.
  intros Hne Hd Hr. unfold match_digits. rewrite (span_app _ _ _ Hd Hr).
  destruct d; [congruence | reflexivity].
Qed.

Lemma match_digits_spec (s d r : string) :
  match_digits s = Some (d, r) ->
  s = d ++ r /\ d <> "" /\ all_chars is_digit d = true /\ starts_with is_digit r = false.
Proof.
  unfold match_digits. destruct (span is_digit s) as [a b] eqn:Hs.
  destruct a as [|c a]; [discriminate|]. intros H; inversion H; subst.
  destruct (span_spec _ _ _ _ Hs) as (-> & Ha & Hb). repeat split; auto; discriminate.
Qed.

Lemma match_digits_start (c : ascii) (s : string) :
  is_digit c = true -> exists d r, match_digits (String c s) = Some (d, r).
Proof.
  intros Hc. unfold match_digits. simpl. rewrite Hc.
  destruct (span is_digit s) as [a b]. eauto.
Qed.

Lemma match_pre_pair (s : string) pre n r :
  match_pre s = (pre, n, r) -> (pre = None <-> n = None).
Proof.
  unfold match_pre. destruct (span is_lower s) as [[|c t] b].
  - intros H; inversion H; subst. tauto.
  - destruct (match_digits b) as [[x y]|]; intros H; inversion H; subst;
      split; discriminate || tauto.
Qed.

Lemma match_dot_app (r : string) : match_dot ("." ++ r) = Some r.
Proof. reflexivity. Qed.

Lemma match_dot_spec (s r : string) : match_dot s = Some r -> s = "." ++ r.
Proof.
  destruct s as [|c s]; simpl; [discriminate|].
  destruct (Ascii.eqb c "."%char) eqn:Hc; [|discriminate].
  apply Ascii.eqb_eq in Hc as ->. now intros [= ->].
Qed.

Lemma dot_not_digit (r : string) : starts_with is_digit ("." ++ r) = false.
Proof. reflexivity. Qed.

Lemma match_digits_run (d r : string) :
  digit_run d -> exists d' r', match_digits (d ++ r) = Some (d', r').
Proof.
  intros [Hne Hd]. destruct d as [|c d]; [congruence|].
  rewrite str_app_cons. apply match_digits_start. simpl in Hd.
  now apply andb_true_iff in Hd as [].
Qed.

(** The pattern matches exactly the strings that start with three runs
    of digits separated by dots. *)
Lemma VERSION_PATTERN_match_some (s : string) :
  (exists g r, VERSION_PATTERN_match s = Some (g, r)) <->
  exists d1 d2 d3 rest, digit_run d1 /\ digit_run d2 /\ digit_run d3 /\
    s = d1 ++ "." ++ d2 ++ "." ++ d3 ++ rest.
Proof.
  split.
  - intros (g & r & H). unfold VERSION_PATTERN_match in H.
    destruct (match_digits s) as [[ma r0]|] eqn:H0; [|discriminate].
    destruct (match_dot r0) as [r1|] eqn:H1; [|discriminate].
    destruct (match_digits r1) as [[mi r2]|] eqn:H2; [|discriminate].
    destruct (match_dot r2) as [r3|] eqn:H3; [|discriminate].
    destruct (match_digits r3) as [[pa r4]|] eqn:H4; [|discriminate].
    apply match_digits_spec in H0 as (-> & ? & ? & _).
    apply match_digits_spec in H2 as (-> & ? & ? & _).
    apply match_digits_spec in H4 as (-> & ? & ? & _).
    apply match_dot_spec in H1 as ->. apply match_dot_spec in H3 as ->.
    exists ma, mi, pa, r4. repeat split; auto.
  - intros (d1 & d2 & d3 & rest & [Hn1 Hd1] & [Hn2 Hd2] & H3 & ->).
    unfold VERSION_PATTERN_match.
    rewrite (match_digits_app d1 _ Hn1 Hd1 (dot_not_digit _)), match_dot_app.
    rewrite (match_digits_app d2 _ Hn2 Hd2 (dot_not_digit _)), match_dot_app.
    destruct (match_digits_run d3 rest H3) as (d' & r' & ->).
    destruct (match_pre r') as [[pre n] r5]. eauto.
Qed.

(** When the third run of digits ends where [rest] starts, the groups
    are the three runs and the optional group read from [rest]. *)
Lemma VERSION_PATTERN_match_app (d1 d2 d3 rest : string) :
  digit_run d1 -> digit_run d2 -> digit_run d3 -> starts_with is_digit rest = false ->
  VERSION_PATTERN_match (d1 ++ "." ++ d2 ++ "." ++ d3 ++ rest) =
  let '(pre, n, r) := match_pre rest in Some (mk_groups d1 d2 d3 pre n, r).
Proof.
  intros [Hn1 Hd1] [Hn2 Hd2] [Hn3 Hd3] Hr. unfold VERSION_PATTERN_match.
  rewrite (match_digits_app d1 _ Hn1 Hd1 (dot_not_digit _)), match_dot_app.
  rewrite (match_digits_app d2 _ Hn2 Hd2 (dot_not_digit _)), match_dot_app.
  rewrite (match_digits_app d3 _ Hn3 Hd3 Hr).
  reflexivity.
Qed.

Lemma match_pre_tag_num (t : string) (k : nat) :
  t <> "" -> all_chars is_lower t = true ->
  match_pre (t ++ py_str k) = (Some t, Some (py_str k), "").
Proof.
  intros Hne Ht. unfold match_pre.
  assert (Hk : starts_with is_lower (py_str k) = false).
  { pose proof (py_str_first_digit k "") as H. now rewrite str_app_nil_r in H. }
  rewrite (span_app _ _ _ Ht Hk).
  assert (Hm : match_digits (py_str k) = Some (py_str k, "")).
  { pose proof (match_digits_app (py_str k) "" (py_str_nonempty k) (py_str_digits k) eq_refl)
      as H. now rewrite str_app_nil_r in H. }
  rewrite Hm. destruct t; [congruence | reflexivity].
Qed.

Lemma match_pre_tag_only (t : string) :
  t <> "" -> all_chars is_lower t = true -> match_pre t = (None, None, t).
Proof.
  intros Hne Ht. unfold match_pre.
  assert (Hs : span is_lower t = (t, "")).
  { pose proof (span_app is_lower t "" Ht eq_refl) as H. now rewrite str_app_nil_r in H. }
  rewrite Hs. destruct t; [congruence | reflexivity].
Qed.

Lemma match_pre_other (r : string) :
  starts_with is_lower r = false -> match_pre r = (None, None, r).
Proof.
  intros H. unfold match_pre. destruct r as [|c r]; [reflexivity|].
  simpl in *. now rewrite H.
Qed.

Lemma starts_lower_not_digit (t r : string) :
  t <> "" -> all_chars is_lower t = true -> starts_with is_digit (t ++ r) = false.
Proof.
  intros Hne Ht. destruct t as [|c t]; [congruence|].
  rewrite str_app_cons. simpl in *. apply andb_true_iff in Ht as [Hc _].
  now apply lower_not_digit.
Qed.

Lemma Version_init_err (s : string) (e : exn) :
  Version_init s = Err e -> e = AttributeError "'NoneType' object has no attribute 'groupdict'".
Proof.
  unfold Version_init. destruct (VERSION_PATTERN_match s) as [[g r]|].
  - destruct (g_num g); discriminate.
  - congruence.
Qed.

Lemma Version_init_ok_iff (s : string) :
  (exists v, Version_init s = Ok v) <-> exists g r, VERSION_PATTERN_match s = Some (g, r).
Proof.
  unfold Version_init. destruct (VERSION_PATTERN_match s) as [[g r]|].
  - split; [eauto|]. intros _. destruct (g_num g); eauto.
  - split; [intros [v Hv] | intros (g & r & H)]; discriminate.
Qed.

Lemma VERSION_PATTERN_match_pair (s : string) (g : groups) (r : string) :
  VERSION_PATTERN_match s = Some (g, r) -> (g_prerelease g = None <-> g_num g = None).
Proof.
  unfold VERSION_PATTERN_match.
  destruct (match_digits s) as [[ma r0]|]; [|discriminate].
  destruct (match_dot r0) as [r1|]; [|discriminate].
  destruct (match_digits r1) as [[mi r2]|]; [|discriminate].
  destruct (match_dot r2) as [r3|]; [|discriminate].
  destruct (match_digits r3) as [[pa r4]|]; [|discriminate].
  destruct (match_pre r4) as [[pre n] r5] eqn:Hp. intros [= <- _]. simpl.
  exact (match_pre_pair _ _ _ _ Hp).
Qed.

(* ------------------------------------------------------------------ *)
(** ** Claims on [Version] *)

(** C8: every [Version] that construction returns has its prerelease tag
    and its prerelease number both set or both unset. *)
Theorem Version_prerelease_num_together (s : string) (v : Version) :
  Version_init s = Ok v -> (prerelease v = None <-> num v = None).
Proof.
  unfold Version_init.
  destruct (VERSION_PATTERN_match s) as [[g r]|] eqn:H; [|discriminate].
  pose proof (VERSION_PATTERN_match_pair _ _ _ H) as Hpair.
  destruct (g_num g) as [n|] eqn:Hn; intros [= <-]; simpl.
  - split; [intros Hp; apply Hpair in Hp; discriminate | discriminate].
  - tauto.
Qed.

Lemma Version_prerelease_num_together_witness :
  Version_init "0.16.0b1" = Ok (mk_Version "0.16.0b1" 0 16 0 (Some "b") (Some 1)) /\
  (prerelease (mk_Version "0.16.0b1" 0 16 0 (Some "b") (Some 1)) = None <->
   num (mk_Version "0.16.0b1" 0 16 0 (Some "b") (Some 1)) = None).
Proof.
  split; [reflexivity|].
  apply (Version_prerelease_num_together "0.16.0b1"). reflexivity.
Defined.

(** C4 (as the code has it): construction fails, with the [AttributeError]
    of calling [groupdict] on [None], exactly on the strings that do not
    start with three dot-separated runs of digits.  The pattern is
    anchored at the start only: a string that starts with [M.N.P] is
    accepted whatever follows, and in particular [M.N.P<tag>] with a tag
    and no number gives a [Version] without prerelease. *)
Theorem Version_init_accepts_prefix :
  (forall s : string,
     ((exists v, Version_init s = Ok v) <->
      exists d1 d2 d3 rest, digit_run d1 /\ digit_run d2 /\ digit_run d3 /\
        s = d1 ++ "." ++ d2 ++ "." ++ d3 ++ rest) /\
     (forall e, Version_init s = Err e ->
        e = AttributeError "'NoneType' object has no attribute 'groupdict'")) /\
  (forall d1 d2 d3 t : string,
     digit_run d1 -> digit_run d2 -> digit_run d3 ->
     t <> "" -> all_chars is_lower t = true ->
     Version_init (d1 ++ "." ++ d2 ++ "." ++ d3 ++ t) =
     Ok (mk_Version (d1 ++ "." ++ d2 ++ "." ++ d3 ++ t)
           (py_int d1) (py_int d2) (py_int d3) None None)).
Proof.
  split.
  - intros s. split; [|apply Version_init_err].
    rewrite Version_init_ok_iff. apply VERSION_PATTERN_match_some.
  - intros d1 d2 d3 t H1 H2 H3 Hne Ht. unfold Version_init.
    rewrite (VERSION_PATTERN_match_app d1 d2 d3 t H1 H2 H3).
    + rewrite (match_pre_tag_only t Hne Ht). reflexivity.
    + rewrite <- (str_app_nil_r t). now apply starts_lower_not_digit.
Qed.

Lemma Version_init_accepts_prefix_witness :
  Version_init ("1" ++ "." ++ "2" ++ "." ++ "3" ++ "rc") =
  Ok (mk_Version ("1" ++ "." ++ "2" ++ "." ++ "3" ++ "rc") (py_int "1") (py_int "2") (py_int "3") None None).
Proof.
  apply (proj2 Version_init_accepts_prefix "1" "2" "3" "rc");
    try (split; [discriminate | reflexivity]); try discriminate; reflexivity.
Defined.

(** C4 as stated fails: [0.16.0b] carries a prerelease tag without a
    number and is accepted, as is [1.2.3junk]. *)
Lemma Version_init_tag_without_num_accepted :
  Version_init "0.16.0b" = Ok (mk_Version "0.16.0b" 0 16 0 None None) /\
  Version_init "1.2.3junk" = Ok (mk_Version "1.2.3junk" 1 2 3 None None).
Proof. split; reflexivity. Qed.

Lemma py_str_run (n : nat) : digit_run (py_str n).
Proof. split; [apply py_str_nonempty | apply py_str_digits]. Qed.

Lemma Version_init_canonical (M N P : nat) (pre : option (string * nat)) :
  valid_pre pre ->
  let s := py_str M ++ "." ++ py_str N ++ "." ++ py_str P ++ pre_suffix pre in
  Version_init s = Ok (mk_Version s M N P (option_map fst pre) (option_map snd pre)).
Proof.
  intros Hpre s. unfold s, Version_init.
  rewrite (VERSION_PATTERN_match_app _ _ _ _ (py_str_run M) (py_str_run N) (py_str_run P)).
  - destruct pre as [[t k]|]; simpl in *.
    + destruct Hpre as [Hne Ht]. rewrite (match_pre_tag_num t k Hne Ht). simpl.
      now rewrite !py_int_py_str.
    + simpl. now rewrite !py_int_py_str.
  - destruct pre as [[t k]|]; simpl in *; [|reflexivity].
    destruct Hpre. now apply starts_lower_not_digit.
Qed.

(** C5: for [M.N.P] and [M.N.P<tag><num>] written with the decimal
    numerals of [M], [N], [P], [num] and a lower-case [tag], the filename
    is [dbt@M.N.P.rb] (or [dbt@M.N.P-<tag><num>.rb]) and the class name is
    the alphanumeric token [DbtAT] [M] [N] [P] followed by the title-cased
    tag and the number; [0.15.2] and [0.16.0b1] give the names of the
    spec's scenarios. *)
Theorem Version_projections :
  (forall (M N P : nat) (pre : option (string * nat)),
     valid_pre pre ->
     exists v,
       Version_init (py_str M ++ "." ++ py_str N ++ "." ++ py_str P ++ pre_suffix pre) = Ok v /\
       homebrew_filename v =
         "dbt@" ++ py_str M ++ "." ++ py_str N ++ "." ++ py_str P ++
         (match pre with Some (t, k) => "-" ++ t ++ py_str k | None => "" end) ++ ".rb" /\
       homebrew_class_name v =
         "DbtAT" ++ py_str M ++ py_str N ++ py_str P ++
         (match pre with Some (t, k) => title t ++ py_str k | None => "" end) /\
       all_chars is_alnum (homebrew_class_name v) = true) /\
  map_result homebrew_class_name (Version_init "0.15.2") = Ok "DbtAT0152" /\
  map_result homebrew_filename (Version_init "0.15.2") = Ok "dbt@0.15.2.rb" /\
  Version_init "0.16.0b1" = Ok (mk_Version "0.16.0b1" 0 16 0 (Some "b") (Some 1)) /\
  map_result homebrew_class_name (Version_init "0.16.0b1") = Ok "DbtAT0160B1" /\
  map_result homebrew_filename (Version_init "0.16.0b1") = Ok "dbt@0.16.0-b1.rb".
Proof.
  split; [|repeat split; reflexivity].
  intros M N P pre Hpre.
  eexists. split; [exact (Version_init_canonical M N P pre Hpre)|].
  assert (Hd : forall n, all_chars is_alnum (py_str n) = true)
    by (intros n; exact (all_chars_impl _ _ _ digit_alnum (py_str_digits n))).
  destruct pre as [[t k]|]; unfold homebrew_filename, homebrew_class_name; simpl.
  - destruct Hpre as [Hne Ht].
    repeat split; [rewrite !str_app_assoc; reflexivity | rewrite !str_app_assoc; reflexivity|].
    rewrite !all_chars_app, !Hd. simpl. rewrite andb_true_r.
    apply (all_chars_impl _ _ _ alpha_alnum), title_aux_alpha.
    exact (all_chars_impl _ _ _ lower_alpha Ht).
  - repeat split; [rewrite str_app_nil_l, !str_app_assoc; reflexivity
                  | rewrite str_app_nil_r; reflexivity |].
    rewrite !all_chars_app, !Hd. reflexivity.
Qed.

Lemma Version_projections_witness :
  exists v,
    Version_init (py_str 1 ++ "." ++ py_str 2 ++ "." ++ py_str 3 ++ pre_suffix (Some ("rc", 4))) = Ok v /\
    homebrew_filename v = "dbt@" ++ py_str 1 ++ "." ++ py_str 2 ++ "." ++ py_str 3 ++
                          ("-" ++ "rc" ++ py_str 4) ++ ".rb" /\
    homebrew_class_name v = "DbtAT" ++ py_str 1 ++ py_str 2 ++ py_str 3 ++ (title "rc" ++ py_str 4) /\
    all_chars is_alnum (homebrew_class_name v) = true.
Proof.
  apply (proj1 Version_projections 1 2 3 (Some ("rc", 4))).
  split; [discriminate | reflexivity].
Defined.

(* ------------------------------------------------------------------ *)
(** ** The rendered formula *)

Lemma concat_empty_sep (l : list string) : String.concat "" l = fold_right String.append "" l.
Proof.
  induction l as [|x [|y l] IH]; [reflexivity| |].
  - simpl. now rewrite str_app_nil_r.
  - change (String.concat "" (x :: y :: l)) with (x ++ "" ++ String.concat "" (y :: l)).
    rewrite str_app_nil_l, IH. reflexivity.
Qed.

Lemma fold_append_app (l1 l2 : list string) :
  fold_right String.append "" (l1 ++ l2)%list =
  fold_right String.append "" l1 ++ fold_right String.append "" l2.
Proof.
  induction l1 as [|x l1 IH]; [reflexivity|]. simpl. now rewrite IH, str_app_assoc.
Qed.

Lemma format_app (l1 l2 : list fmt_piece) (kw : list (string * string)) :
  format (l1 ++ l2)%list kw = format l1 kw ++ format l2 kw.
Proof. unfold format. now rewrite map_app, !concat_empty_sep, fold_append_app. Qed.

(** The version line of the template, and the template around it. *)
Lemma DBT_HOMEBREW_FORMULA_version_line :
  DBT_HOMEBREW_FORMULA =
  (firstn 6 DBT_HOMEBREW_FORMULA ++
   [FLit (String newline ("  version " ++ dq)); FField "version"] ++
   skipn 8 DBT_HOMEBREW_FORMULA)%list.
Proof. reflexivity. Qed.

Lemma contents_version_line (t : DbtHomebrewTemplate) (versioned : bool) :
  exists a b, contents t versioned = a ++ "  version " ++ dq ++ Version_str (version t) ++ dq ++ b.
Proof.
  unfold contents. rewrite DBT_HOMEBREW_FORMULA_version_line, !format_app.
  set (kw := [("formula_name", if versioned then homebrew_class_name (version t) else "Dbt");
              ("url_data", url_data t); ("hash_data", hash_data t);
              ("version", Version_str (version t)); ("dependencies", dependencies t);
              ("trailer", DBT_HOMEBREW_TRAILER)]).
  set (B := format (skipn 8 DBT_HOMEBREW_FORMULA) kw).
  assert (HB : B = dq ++ match B with String _ r => r | EmptyString => EmptyString end)
    by reflexivity.
  exists (format (firstn 6 DBT_HOMEBREW_FORMULA) kw ++ String newline ""),
         (match B with String _ r => r | EmptyString => EmptyString end).
  rewrite HB at 1. clearbody B.
  change (format [FLit (String newline ("  version " ++ dq)); FField "version"] kw)
    with (String newline ("  version " ++ dq) ++ Version_str (version t)).
  rewrite !str_app_assoc. reflexivity.
Qed.

Lemma VERSION_PATTERN_match_prefix (d1 d2 d3 rest : string) :
  digit_run d1 -> digit_run d2 -> digit_run d3 ->
  exists pa pre n r,
    VERSION_PATTERN_match (d1 ++ "." ++ d2 ++ "." ++ d3 ++ rest) = Some (mk_groups d1 d2 pa pre n, r).
Proof.
  intros [Hn1 Hd1] [Hn2 Hd2] H3. unfold VERSION_PATTERN_match.
  rewrite (match_digits_app d1 _ Hn1 Hd1 (dot_not_digit _)), match_dot_app.
  rewrite (match_digits_app d2 _ Hn2 Hd2 (dot_not_digit _)), match_dot_app.
  destruct (match_digits_run d3 rest H3) as (pa & r4 & ->).
  destruct (match_pre r4) as [[pre n] r5]. eauto.
Qed.

Lemma match_pre_fit (pre : option (string * string)) (junk : string) :
  match pre with
  | Some (t, d4) => t <> "" /\ all_chars is_lower t = true /\ digit_run d4
  | None => True
  end ->
  starts_with is_digit junk = false ->
  (pre = None -> ~ exists t d r, t <> "" /\ all_chars is_lower t = true /\ digit_run d /\
                                 junk = t ++ d ++ r) ->
  let rest := (match pre with Some (t, d4) => t ++ d4 | None => "" end) ++ junk in
  starts_with is_digit rest = false /\
  match_pre rest = (option_map fst pre, option_map snd pre, junk).
Proof.
  intros Hpre Hj Hnone rest. subst rest.
  destruct pre as [[t d4]|]; cbn [option_map fst snd].
  - destruct Hpre as (Ht & Htl & Hn4 & Hd4).
    rewrite str_app_assoc. split; [now apply starts_lower_not_digit|].
    assert (Hl : starts_with is_lower (d4 ++ junk) = false).
    { destruct d4 as [|c d4]; [congruence|]. rewrite str_app_cons. simpl in *.
      apply andb_true_iff in Hd4 as [Hc _].
      destruct (is_lower c) eqn:Hlc; [|reflexivity].
      now rewrite (lower_not_digit c Hlc) in Hc. }
    unfold match_pre. rewrite (span_app _ _ _ Htl Hl), (match_digits_app _ _ Hn4 Hd4 Hj).
    destruct t; [congruence | reflexivity].
  - rewrite str_app_nil_l. split; [exact Hj|].
    unfold match_pre. destruct (span is_lower junk) as [a b] eqn:Hs.
    destruct (span_spec _ _ _ _ Hs) as (Hab & Ha & _).
    destruct a as [|c a]; [reflexivity|].
    destruct (match_digits b) as [[n r']|] eqn:Hd; [|reflexivity].
    exfalso. apply (Hnone eq_refl).
    destruct (match_digits_spec _ _ _ Hd) as (-> & Hn & Hnd & _).
    exists (String c a), n, r'. repeat split; [discriminate | exact Ha | exact Hn | exact Hnd | exact Hab].
Qed.

(** C9: construction succeeds on every string that starts with [M.N.P],
    whatever follows. When the text after [M.N.P] is an optional
    letters-then-digits pair [t d4] (lower-case letters, then digits)
    followed by any text [junk] that does not fit the pattern ([junk]
    does not start with a digit and, without the pair, holds no
    letters-then-digits prefix), parsing ignores [junk]: the version is
    [M.N.P] with prerelease [t] and number [d4] when the pair is there,
    and none otherwise. In particular text that starts with neither a
    digit nor a lower-case letter is ignored. The raw string, trailing
    text included, is the literal version string of the rendered
    formula. *)
Theorem Version_accepts_trailing_text (d1 d2 d3 rest : string) :
  digit_run d1 -> digit_run d2 -> digit_run d3 ->
  let s := d1 ++ "." ++ d2 ++ "." ++ d3 ++ rest in
  exists v,
    Version_init s = Ok v /\ raw v = s /\
    major v = py_int d1 /\ minor v = py_int d2 /\
    (starts_with is_digit rest = false -> starts_with is_lower rest = false ->
     v = mk_Version s (py_int d1) (py_int d2) (py_int d3) None None) /\
    (forall (pre : option (string * string)) (junk : string),
       rest = (match pre with Some (t, d4) => t ++ d4 | None => "" end) ++ junk ->
       match pre with
       | Some (t, d4) => t <> "" /\ all_chars is_lower t = true /\ digit_run d4
       | None => True
       end ->
       starts_with is_digit junk = false ->
       (pre = None -> ~ exists t d r, t <> "" /\ all_chars is_lower t = true /\ digit_run d /\
                                      junk = t ++ d ++ r) ->
       v = mk_Version s (py_int d1) (py_int d2) (py_int d3)
             (option_map fst pre) (option_map (fun p => py_int (snd p)) pre)) /\
    (forall (url hash deps : string) (versioned : bool),
       exists a b, contents (mk_template url hash deps v) versioned =
                   a ++ "  version " ++ dq ++ s ++ dq ++ b).
Proof.
  intros H1 H2 H3 s.
  destruct (VERSION_PATTERN_match_prefix d1 d2 d3 rest H1 H2 H3) as (pa & pre & n & r & Hm).
  set (pn := match n with Some k => (pre, Some (py_int k)) | None => (None, None) end).
  exists (mk_Version s (py_int d1) (py_int d2) (py_int pa) (fst pn) (snd pn)).
  split; [unfold Version_init, s; rewrite Hm; destruct n; reflexivity|].
  split; [reflexivity|]. split; [reflexivity|]. split; [reflexivity|]. split; [|split].
  - intros Hd Hl.
    assert (Hm' := VERSION_PATTERN_match_app d1 d2 d3 rest H1 H2 H3 Hd).
    rewrite (match_pre_other rest Hl), Hm in Hm'. inversion Hm'; subst. reflexivity.
  - intros pre' junk Hr Hpre Hj Hnone.
    destruct (match_pre_fit pre' junk Hpre Hj Hnone) as [Hd Hmp].
    rewrite <- Hr in Hd, Hmp.
    assert (Hm' := VERSION_PATTERN_match_app d1 d2 d3 rest H1 H2 H3 Hd).
    rewrite Hmp, Hm in Hm'. inversion Hm'; subst.
    destruct pre' as [[t d4]|]; reflexivity.
  - intros url hash deps versioned.
    exact (contents_version_line (mk_template url hash deps _) versioned).
Qed.

Lemma Version_accepts_trailing_text_witness :
  exists v,
    Version_init ("0" ++ "." ++ "15" ++ "." ++ "2" ++ "b1-dev") = Ok v /\
    raw v = "0" ++ "." ++ "15" ++ "." ++ "2" ++ "b1-dev" /\
    major v = py_int "0" /\ minor v = py_int "15" /\
    (starts_with is_digit "b1-dev" = false -> starts_with is_lower "b1-dev" = false ->
     v = mk_Version ("0" ++ "." ++ "15" ++ "." ++ "2" ++ "b1-dev")
           (py_int "0") (py_int "15") (py_int "2") None None) /\
    (forall (pre : option (string * string)) (junk : string),
       "b1-dev" = (match pre with Some (t, d4) => t ++ d4 | None => "" end) ++ junk ->
       match pre with
       | Some (t, d4) => t <> "" /\ all_chars is_lower t = true /\ digit_run d4
       | None => True
       end ->
       starts_with is_digit junk = false ->
       (pre = None -> ~ exists t d r, t <> "" /\ all_chars is_lower t = true /\ digit_run d /\
                                      junk = t ++ d ++ r) ->
       v = mk_Version ("0" ++ "." ++ "15" ++ "." ++ "2" ++ "b1-dev")
             (py_int "0") (py_int "15") (py_int "2")
             (option_map fst pre) (option_map (fun p => py_int (snd p)) pre)) /\
    (forall (url hash deps : string) (versioned : bool),
       exists a b, contents (mk_template url hash deps v) versioned =
         a ++ "  version " ++ dq ++ ("0" ++ "." ++ "15" ++ "." ++ "2" ++ "b1-dev") ++ dq ++ b).
Proof.
  apply (Version_accepts_trailing_text "0" "15" "2" "b1-dev");
    split; [discriminate | reflexivity | discriminate | reflexivity | discriminate | reflexivity].
Defined.

(* ------------------------------------------------------------------ *)
(** ** Extraction of the url and hash lines *)

Lemma extract_loop_searching (pre rest : list string) :
  Forall no_marker pre -> extract_loop false (pre ++ rest) = extract_loop false rest.
Proof.
  induction 1 as [|l pre Hl _ IH]; [reflexivity|]. simpl.
  destruct (String.eqb_spec (strip l) resource_dbt_do); [contradiction | exact IH].
Qed.

Lemma extract_loop_collecting (body tail : list string) :
  Forall no_end body ->
  (tail = [] \/ exists e tl, tail = e :: tl /\ strip e = "end") ->
  extract_loop true (body ++ tail) = map strip body.
Proof.
  intros Hb Ht. induction Hb as [|l body Hl _ IH]; simpl.
  - destruct Ht as [-> | (e & tl & -> & He)]; [reflexivity|]. simpl. now rewrite He.
  - destruct (String.eqb_spec (strip l) "end"); [contradiction|]. now rewrite IH.
Qed.

(** C6 (as the code has it): the two names are bound only when exactly
    two lines follow the first [resource "dbt" do] line before the next
    [end] line or the end of the output; these lines, trimmed and in
    order, are the url and hash lines.  Without a marker line, and with
    fewer or more than two lines, unpacking raises [ValueError]. *)
Theorem extract_parts_exactly_two (o : string) :
  (Forall no_marker (split_nl o) ->
   unpack2 (_extract_parts o) = Err (ValueError "not enough values to unpack (expected 2, got 0)")) /\
  (forall pre m body tail,
     split_nl o = (pre ++ m :: body ++ tail)%list ->
     Forall no_marker pre -> strip m = resource_dbt_do -> Forall no_end body ->
     (tail = [] \/ exists e tl, tail = e :: tl /\ strip e = "end") ->
     _extract_parts o = map strip body /\
     (forall u h, unpack2 (_extract_parts o) = Ok (u, h) <-> map strip body = [u; h]) /\
     (List.length body <> 2 -> exists msg, unpack2 (_extract_parts o) = Err (ValueError msg))).
Proof.
  unfold _extract_parts. split.
  - intros H. rewrite <- (app_nil_r (split_nl o)), (extract_loop_searching _ _ H). reflexivity.
  - intros pre m body tail Hs Hpre Hm Hbody Htail. rewrite Hs, (extract_loop_searching _ _ Hpre).
    simpl. rewrite Hm, String.eqb_refl, (extract_loop_collecting _ _ Hbody Htail).
    split; [reflexivity|]. split.
    + intros u h. destruct (map strip body) as [|x [|y [|z l]]]; simpl;
        split; congruence.
    + intros Hlen. rewrite <- (length_map strip body) in Hlen.
      destruct (map strip body) as [|x [|y [|z l]]]; simpl in *; eauto; lia.
Qed.

Lemma extract_parts_exactly_two_witness :
  _extract_parts sample_resource_block = map strip ["url " ++ dq ++ "u" ++ dq; "sha256 " ++ dq ++ "h" ++ dq] /\
  (forall u h, unpack2 (_extract_parts sample_resource_block) = Ok (u, h) <->
     map strip ["url " ++ dq ++ "u" ++ dq; "sha256 " ++ dq ++ "h" ++ dq] = [u; h]) /\
  (List.length ["url " ++ dq ++ "u" ++ dq; "sha256 " ++ dq ++ "h" ++ dq] <> 2 ->
   exists msg, unpack2 (_extract_parts sample_resource_block) = Err (ValueError msg)).
Proof.
  apply (proj2 (extract_parts_exactly_two sample_resource_block) [] resource_dbt_do
           ["url " ++ dq ++ "u" ++ dq; "sha256 " ++ dq ++ "h" ++ dq] ["end"]).
  - reflexivity.
  - constructor.
  - reflexivity.
  - repeat constructor; unfold no_end; vm_compute; discriminate.
  - right. exists "end", []. split; reflexivity.
Defined.

(** C6 as stated fails: an output with the marker line and two lines but
    no [end] line has no [resource "dbt" do ... end] block, and the
    formula data is still produced from it. *)
Lemma extract_without_end_accepted :
  unpack2 (_extract_parts block_without_end) =
    Ok ("url " ++ dq ++ "u" ++ dq, "sha256 " ++ dq ++ "h" ++ dq) /\
  fst (homebrew_formula_template (ok_run block_without_end) ok_venv ["dbt"] v0152
         (mk_world ∅ [])) =
    Ok (mk_template ("url " ++ dq ++ "u" ++ dq) ("sha256 " ++ dq ++ "h" ++ dq)
          block_without_end v0152).
Proof. split; vm_compute; reflexivity. Qed.

(* ------------------------------------------------------------------ *)
(** ** Writing the formula *)

(** C1: once a call has written the formula of a version, a second call
    for the same version and formula repository, made while that file is
    still there, raises the [ValueError] of the existence check and leaves
    the world as it found it: nothing is written, and the file keeps the
    contents of the first call. *)
Theorem create_homebrew_formula_no_overwrite (t1 t2 : DbtHomebrewTemplate) (v : Version)
    (homebrew_path : path) (w0 w1 w2 : world) (p : path) :
  create_homebrew_formula t1 v homebrew_path w0 = (Ok p, w1) ->
  fs w2 !! p = fs w1 !! p ->
  fs w1 !! p = Some (File (contents t1 true)) /\
  create_homebrew_formula t2 v homebrew_path w2 =
    (Err (ValueError "Homebrew formula path already exists!"), w2).
Proof.
  unfold create_homebrew_formula, bind, path_exists, write_text, get_fs, log, set_fs, ret, raise.
  set (q := ((homebrew_path ++ ["Formula"]) ++ [homebrew_filename v])%list).
  intros H1 H2.
  destruct (exists_ (fs w0) q) eqn:He; [discriminate|].
  cbn -[parent_ok is_dir contents] in H1.
  destruct (parent_ok (fs w0) q); [|discriminate].
  destruct (is_dir (fs w0) q); [discriminate|].
  inversion H1; subst p w1. simpl in *. rewrite lookup_insert_eq in H2 |- *.
  split; [reflexivity|].
  unfold exists_. rewrite H2. reflexivity.
Qed.

Lemma create_homebrew_formula_no_overwrite_witness :
  let w1 := snd (create_homebrew_formula sample_template v0152 ["hb"] hb_world) in
  fs w1 !! ["hb"; "Formula"; "dbt@0.15.2.rb"] = Some (File (contents sample_template true)) /\
  create_homebrew_formula sample_template v0152 ["hb"] w1 =
    (Err (ValueError "Homebrew formula path already exists!"), w1).
Proof.
  apply (create_homebrew_formula_no_overwrite sample_template sample_template v0152 ["hb"]
           hb_world _ _ ["hb"; "Formula"; "dbt@0.15.2.rb"]); vm_compute; reflexivity.
Defined.

(* ------------------------------------------------------------------ *)
(** ** The pipeline *)

(** C3 (divergence): [upgrade_to] hands the [Version] object to
    [set_version], whose [check_output] cannot convert it into a command
    argument; every run stops there with [TypeError], before [bumpversion]
    starts, so no run reaches the staging upload, the confirmation prompt
    or the production upload, whatever the processes and the operator do. *)
Theorem upgrade_to_stops_at_set_version run_oracle input_oracle venv_oracle
    (args : Arguments) (w : world) :
  upgrade_to run_oracle input_oracle venv_oracle args w =
    (Err (TypeError "expected str, bytes or os.PathLike object, not Version"), w).
Proof. reflexivity. Qed.

(* ------------------------------------------------------------------ *)
(** *** Where a [CalledProcessError] comes from *)

Section Provenance.

Variable run_oracle : world -> list string -> option path -> proc_outcome * fsys.

Lemma cpe_ret P {A} (a : A) : cpe_only run_oracle P (ret a).
Proof. intros w c a' o w' H. discriminate. Qed.

Lemma cpe_raise P {A} (e : exn) :
  (forall c a o, e <> CalledProcessError c a o) -> cpe_only run_oracle P (A := A) (raise e).
Proof. intros He w c a o w' H. inversion H; subst. exfalso. eapply He; eauto. Qed.

Lemma cpe_get_fs P : cpe_only run_oracle P get_fs.
Proof. intros w c a o w' H. discriminate. Qed.

Lemma cpe_set_fs P f : cpe_only run_oracle P (set_fs f).
Proof. intros w c a o w' H. discriminate. Qed.

Lemma cpe_log P e : cpe_only run_oracle P (log e).
Proof. intros w c a o w' H. discriminate. Qed.

Lemma cpe_path_exists P p : cpe_only run_oracle P (path_exists p).
Proof. intros w c a o w' H. discriminate. Qed.

Lemma cpe_all_packages_in P p : cpe_only run_oracle P (_all_packages_in p).
Proof. intros w c a o w' H. discriminate. Qed.

Lemma cpe_bind P {A B} (m : M A) (k : A -> M B) :
  cpe_only run_oracle P m -> (forall a, cpe_only run_oracle P (k a)) -> cpe_only run_oracle P (bind m k).
Proof.
  intros Hm Hk w c a o w' H. unfold bind in H.
  destruct (m w) as [[x|e] w1] eqn:E.
  - exact (Hk x w1 c a o w' H).
  - inversion H; subst. exact (Hm w c a o w' E).
Qed.

Lemma cpe_if P {A} (b : bool) (m1 m2 : M A) :
  cpe_only run_oracle P m1 -> cpe_only run_oracle P m2 -> cpe_only run_oracle P (if b then m1 else m2).
Proof. now destruct b. Qed.

Lemma args_to_argv_err (l : list arg) (e : exn) :
  args_to_argv l = Err e -> e = TypeError "expected str, bytes or os.PathLike object, not Version".
Proof.
  induction l as [|x l IH]; simpl; [discriminate|].
  destruct x; simpl; destruct (args_to_argv l); try discriminate; auto;
    intros H; inversion H; auto.
Qed.

Lemma cpe_check_output (cmd : list arg) (cwd : option path) :
  cpe_only run_oracle (fun a => args_to_argv cmd = Ok a) (check_output run_oracle cmd cwd).
Proof.
  intros w c a o w' H. unfold check_output in H.
  destruct (args_to_argv cmd) as [argv|e] eqn:Hargs.
  - destruct (run_oracle w argv cwd) as [out f'] eqn:Hr.
    destruct out as [[|c'] o'|msg]; inversion H; subst.
    split; [reflexivity|]. exists w, cwd. split; [exact Hr | reflexivity].
  - apply args_to_argv_err in Hargs. inversion H; subst. discriminate.
Qed.

Lemma cpe_weaken (P Q : list string -> Prop) {A} (m : M A) :
  (forall a, P a -> Q a) -> cpe_only run_oracle P m -> cpe_only run_oracle Q m.
Proof. intros HPQ Hm w c a o w' H. destruct (Hm w c a o w' H) as [HP Hx]. auto. Qed.

End Provenance.

Lemma walk_error_not_cpe (f : fsys) (pre rest : path) c a o :
  walk_error f pre rest <> CalledProcessError c a o.
Proof.
  revert pre. induction rest as [|x [|y r] IH]; intros pre; simpl; try discriminate.
  destruct (f !! (pre ++ [x])%list) as [[]|]; try discriminate. apply IH.
Qed.

Lemma not_dir_error_not_cpe (f : fsys) (p : path) c a o :
  not_dir_error f p <> CalledProcessError c a o.
Proof.
  unfold not_dir_error. destruct (f !! p) as [[]|]; try discriminate; apply walk_error_not_cpe.
Qed.

Create HintDb cpe.
#[export] Hint Resolve cpe_ret cpe_get_fs cpe_set_fs cpe_log cpe_path_exists
  cpe_all_packages_in : cpe.

Ltac cpe_solve :=
  repeat first
    [ apply cpe_bind; [|intros]
    | apply cpe_if
    | apply cpe_raise; intros ? ? ?; discriminate
    | apply cpe_raise; intros ? ? ?; apply walk_error_not_cpe
    | apply cpe_raise; intros ? ? ?; apply not_dir_error_not_cpe
    | solve [eauto with cpe]
    | match goal with |- cpe_only _ _ (match ?x with _ => _ end) => destruct x end ].

Lemma cpe_rmtree ro P p : cpe_only ro P (rmtree p).
Proof. unfold rmtree. cpe_solve. Qed.

Lemma cpe_makedirs ro P p : cpe_only ro P (makedirs p).
Proof.
  unfold makedirs. generalize (@nil string) as pre.
  induction p as [|c p IH]; intros pre; simpl; [apply cpe_ret|].
  cpe_solve; apply IH.
Qed.

Lemma cpe_clean_dist ro P p make : cpe_only ro P (clean_dist p make).
Proof.
  unfold clean_dist. apply cpe_bind; [apply cpe_path_exists|intros e].
  apply cpe_bind; [apply cpe_if; [apply cpe_rmtree | apply cpe_ret]|intros _].
  apply cpe_bind; [apply cpe_if; [apply cpe_makedirs | apply cpe_ret] | intros _; apply cpe_ret].
Qed.

Lemma cpe_build_pypi_package ro p :
  cpe_only ro (fun a => a = build_argv) (build_pypi_package ro p).
Proof.
  unfold build_pypi_package. apply cpe_bind; [|intros; apply cpe_ret].
  eapply cpe_weaken; [|apply cpe_check_output]. intros a H. now inversion H.
Qed.

Lemma cpe_shutil_copy ro P src dst : cpe_only ro P (shutil_copy src dst).
Proof. unfold shutil_copy. cpe_solve. Qed.

Lemma cpe_build_pypi_packages ro dbt_path :
  cpe_only ro (fun a => a = build_argv) (build_pypi_packages ro dbt_path).
Proof.
  unfold build_pypi_packages.
  apply cpe_bind; [apply cpe_clean_dist|intros dist_path].
  apply cpe_bind.
  - generalize (@nil path) as acc. induction _SUBPACKAGES as [|sp l IH]; intros acc; simpl.
    + apply cpe_ret.
    + apply cpe_bind; [apply cpe_clean_dist|intros sub_dist].
      apply cpe_bind; [apply cpe_build_pypi_package|intros _].
      apply cpe_bind; [apply cpe_all_packages_in|intros pkgs]. apply IH.
  - intros sub_pkgs. apply cpe_bind; [apply cpe_build_pypi_package|intros _].
    apply cpe_bind; [|intros; apply cpe_ret].
    induction sub_pkgs as [|p l IH]; simpl; [apply cpe_ret|].
    apply cpe_bind; [apply cpe_shutil_copy | intros _; exact IH].
Qed.

(** C2: when the build stage fails because a build process exits with a
    non-zero status, the run of the stages after the version bump ends
    there, with the same error and the same world: no upload, prompt,
    virtual environment, formula or [brew]/[git] command follows.  The
    error is the [CalledProcessError] of a [python setup.py sdist
    bdist_wheel] process and carries the status and the output that this
    process gave. *)
Theorem build_failure_halts_release run_oracle input_oracle venv_oracle
    (args : Arguments) (w w' : world) (code : nat) (argv : list string) (out : string) :
  build_pypi_packages run_oracle (args_path args) w =
    (Err (CalledProcessError code argv out), w') ->
  release_stages run_oracle input_oracle venv_oracle args w =
    (Err (CalledProcessError code argv out), w') /\
  argv = build_argv /\
  exists wc cwd, run_oracle wc argv cwd = (Exited code out, fs w') /\
                 trace w' = (trace wc ++ [ERun argv cwd])%list.
Proof.
  intros H. split.
  - unfold release_stages, bind. now rewrite H.
  - exact (cpe_build_pypi_packages run_oracle (args_path args) w code argv out w' H).
Qed.

Lemma build_failure_halts_release_witness :
  let r := build_pypi_packages postgres_fails ["dbt"] (mk_world ∅ []) in
  r = (Err (CalledProcessError 1 build_argv "error: invalid command 'bdist_wheel'"), snd r) /\
  release_stages postgres_fails (fun _ _ => Some "") ok_venv sample_args (mk_world ∅ []) =
    (Err (CalledProcessError 1 build_argv "error: invalid command 'bdist_wheel'"), snd r) /\
  build_argv = build_argv /\
  exists wc cwd, postgres_fails wc build_argv cwd =
                   (Exited 1 "error: invalid command 'bdist_wheel'", fs (snd r)) /\
                 trace (snd r) = (trace wc ++ [ERun build_argv cwd])%list.
Proof.
  intros r. assert (Hr : r = (Err (CalledProcessError 1 build_argv
                                   "error: invalid command 'bdist_wheel'"), snd r))
    by (vm_compute; reflexivity).
  split; [exact Hr|].
  exact (build_failure_halts_release postgres_fails (fun _ _ => Some "") ok_venv sample_args
           (mk_world ∅ []) (snd r) 1 build_argv "error: invalid command 'bdist_wheel'" Hr).
Defined.

(* ------------------------------------------------------------------ *)
(** *** The aggregate [dist] directory *)

Lemma bind_ok {A B} (m : M A) (k : A -> M B) w a w1 :
  m w = (Ok a, w1) -> bind m k w = k a w1.
Proof. unfold bind. now intros ->. Qed.

Lemma bind_err {A B} (m : M A) (k : A -> M B) w e w1 :
  m w = (Err e, w1) -> bind m k w = (Err e, w1).
Proof. unfold bind. now intros ->. Qed.

Lemma clean_dist_dir (p : path) (w : world) :
  is_dir (fs w) (p ++ ["dist"])%list = true ->
  clean_dist p false w =
    (Ok (p ++ ["dist"])%list,
     mk_world (without (p ++ ["dist"])%list (fs w)) (trace w ++ [ERmtree (p ++ ["dist"])%list])%list).
Proof.
  intros H. unfold clean_dist, path_exists, bind, rmtree, get_fs, log, set_fs, ret.
  unfold exists_, is_dir in *. destruct (fs w !! (p ++ ["dist"])%list) as [[]|] eqn:Hp; try discriminate.
  rewrite bool_decide_true by (eexists; reflexivity). cbn. rewrite Hp. reflexivity.
Qed.

Lemma clean_dist_absent (p : path) (w : world) :
  fs w !! (p ++ ["dist"])%list = None -> clean_dist p false w = (Ok (p ++ ["dist"])%list, w).
Proof.
  intros H. unfold clean_dist, path_exists, bind, ret, exists_. rewrite H. reflexivity.
Qed.

Lemma check_output_fails (ro : world -> list string -> option path -> proc_outcome * fsys)
    (cmd : list arg) (argv : list string) (cwd : option path)
    (w : world) (code : nat) (out : string) (f : fsys) :
  args_to_argv cmd = Ok argv -> ro w argv cwd = (Exited (S code) out, f) ->
  check_output ro cmd cwd w =
    (Err (CalledProcessError (S code) argv out), mk_world f (trace w ++ [ERun argv cwd])%list).
Proof. intros Ha Hr. unfold check_output. rewrite Ha, Hr. reflexivity. Qed.

Lemma dist_not_under_core (p k : path) :
  (p ++ ["dist"])%list `prefix_of` k ->
  ~ (p ++ ["core"])%list `prefix_of` k /\ ~ (p ++ ["core"; "dist"])%list `prefix_of` k.
Proof.
  intros [k1 ->]. split; intros [k2 H]; rewrite <- !app_assoc in H;
    apply app_inv_head in H; discriminate.
Qed.

(** C10: [build_pypi_packages] removes the existing aggregate [dist]
    directory of the main package before it starts any build; when the
    build of the first subpackage ([core]) then fails, the run ends with
    that build's error, the old aggregate directory is gone, and the only
    effects were its removal, possibly the removal of [core/dist], and the
    failed build. *)
Theorem build_pypi_packages_removes_dist_first
    (ro : world -> list string -> option path -> proc_outcome * fsys) (dbt_path : path) (w : world)
    (code : nat) (out : string) :
  is_dir (fs w) (dbt_path ++ ["dist"])%list = true ->
  (is_dir (fs w) (dbt_path ++ ["core"; "dist"])%list = true \/
   fs w !! (dbt_path ++ ["core"; "dist"])%list = None) ->
  build_tool_scoped ro ->
  (forall w', (ro w' build_argv (Some (dbt_path ++ ["core"])%list)).1 = Exited (S code) out) ->
  exists w',
    build_pypi_packages ro dbt_path w = (Err (CalledProcessError (S code) build_argv out), w') /\
    (forall k, (dbt_path ++ ["dist"])%list `prefix_of` k -> fs w' !! k = None) /\
    exists mid,
      trace w' = (trace w ++ ERmtree (dbt_path ++ ["dist"])%list :: mid ++
                  [ERun build_argv (Some (dbt_path ++ ["core"])%list)])%list /\
      (mid = [] \/ mid = [ERmtree (dbt_path ++ ["core"; "dist"])%list]).
Proof.
  intros Hdist Hcore Hscoped Hfail.
  set (D := (dbt_path ++ ["dist"])%list). set (C := (dbt_path ++ ["core"])%list).
  set (w1 := mk_world (without D (fs w)) (trace w ++ [ERmtree D])%list).
  assert (HC : (dbt_path ++ ["core"; "dist"])%list = (C ++ ["dist"])%list)
    by (unfold C; now rewrite <- app_assoc).
  assert (HCD : ~ D `prefix_of` (C ++ ["dist"])%list)
    by (rewrite <- HC; intros Hp; exact (proj2 (dist_not_under_core _ _ Hp) ltac:(reflexivity))).
  assert (Hw1C : fs w1 !! (C ++ ["dist"])%list = fs w !! (C ++ ["dist"])%list).
  { simpl. unfold without. destruct (fs w !! (C ++ ["dist"])%list) as [x|] eqn:Hx.
    - apply map_lookup_filter_Some. split; [exact Hx | exact HCD].
    - apply map_lookup_filter_None. now left. }
  (* the state in which the build of [core] starts *)
  assert (Hw2 : exists w2 mid,
             clean_dist C false w1 = (Ok (C ++ ["dist"])%list, w2) /\
             trace w2 = (trace w1 ++ mid)%list /\
             (mid = [] \/ mid = [ERmtree (C ++ ["dist"])%list]) /\
             forall k, D `prefix_of` k -> fs w2 !! k = None).
  { assert (HD1 : forall k, D `prefix_of` k -> fs w1 !! k = None).
    { intros k Hk. simpl. unfold without. apply map_lookup_filter_None. right.
      intros x _ Hn. exact (Hn Hk). }
    rewrite HC in Hcore. destruct Hcore as [Hd | Ha].
    - assert (Hd1 : is_dir (fs w1) (C ++ ["dist"])%list = true)
        by (unfold is_dir in *; now rewrite Hw1C).
      clear Hd. rename Hd1 into Hd.
      eexists _, _. split; [exact (clean_dist_dir C w1 Hd)|].
      split; [reflexivity|]. split; [right; reflexivity|].
      intros k Hk. simpl. unfold without. apply map_lookup_filter_None. left. now apply HD1.
    - rewrite <- Hw1C in Ha.
      exists w1, []. split; [exact (clean_dist_absent C w1 Ha)|].
      split; [now rewrite app_nil_r|]. split; [left; reflexivity|]. exact HD1. }
  destruct Hw2 as (w2 & mid & Hclean & Htr & Hmid & HD2).
  destruct (ro w2 build_argv (Some C)) as [o f] eqn:Hro.
  assert (Ho : o = Exited (S code) out) by (specialize (Hfail w2); change (dbt_path ++ ["core"])%list with C in Hfail;
        rewrite Hro in Hfail; exact Hfail).
  subst o.
  exists (mk_world f (trace w2 ++ [ERun build_argv (Some C)])%list). split; [|split].
  - unfold build_pypi_packages.
    rewrite (bind_ok _ _ w _ w1 (clean_dist_dir dbt_path w Hdist)).
    apply bind_err. simpl build_subpackages.
    rewrite (bind_ok _ _ w1 _ w2 Hclean).
    apply bind_err. unfold build_pypi_package. apply bind_err.
    apply (check_output_fails ro _ build_argv (Some C) w2 code out f); [reflexivity | exact Hro].
  - intros k Hk. simpl.
    pose proof (Hscoped w2 build_argv C k (proj1 (dist_not_under_core _ _ Hk))) as Hs.
    rewrite Hro in Hs. simpl in Hs. rewrite Hs. exact (HD2 k Hk).
  - exists mid. split.
    + simpl. rewrite Htr. simpl. now rewrite <- !app_assoc.
    + rewrite HC. exact Hmid.
Qed.

Lemma failing_build_scoped : build_tool_scoped failing_build.
Proof. intros w argv cwd k _. reflexivity. Qed.

Lemma build_pypi_packages_removes_dist_first_witness :
  is_dir (fs dist_world) (["dbt"] ++ ["dist"])%list = true /\
  fs dist_world !! (["dbt"] ++ ["core"; "dist"])%list = None /\
  exists w',
    build_pypi_packages failing_build ["dbt"] dist_world =
      (Err (CalledProcessError 1 build_argv "error: invalid command"), w') /\
    (forall k, (["dbt"] ++ ["dist"])%list `prefix_of` k -> fs w' !! k = None) /\
    exists mid,
      trace w' = (trace dist_world ++ ERmtree (["dbt"] ++ ["dist"])%list :: mid ++
                  [ERun build_argv (Some (["dbt"] ++ ["core"])%list)])%list /\
      (mid = [] \/ mid = [ERmtree (["dbt"] ++ ["core"; "dist"])%list]).
Proof.
  split; [vm_compute; reflexivity|]. split; [vm_compute; reflexivity|].
  apply (build_pypi_packages_removes_dist_first failing_build ["dbt"] dist_world 0
           "error: invalid command").
  - vm_compute. reflexivity.
  - right. vm_compute. reflexivity.
  - exact failing_build_scoped.
  - intros w'. reflexivity.
Defined.

(* ------------------------------------------------------------------ *)
(** *** Which effects a run records *)

Section Effects.

Variable run_oracle : world -> list string -> option path -> proc_outcome * fsys.
Variable venv_oracle : world -> path -> result fsys.
Variable Q : event -> Prop.

Hypothesis Q_run : forall a c, Q (ERun a c).
Hypothesis Q_mkdir : forall p, Q (EMkdir p).
Hypothesis Q_rmtree : forall p, Q (ERmtree p).
Hypothesis Q_rmdir : forall p, Q (ERmdir p).
Hypothesis Q_venv : forall p, Q (EVenv p).

Lemma grows_nil {A} (m : M A) : (forall w r w', m w = (r, w') -> trace w' = trace w) -> grows Q m.
Proof. intros H w r w' E. exists []. rewrite app_nil_r. split; [eapply H; eauto | constructor]. Qed.

Lemma grows_ret {A} (a : A) : grows Q (ret a).
Proof. apply grows_nil. intros w r w' E. now inversion E. Qed.

Lemma grows_raise {A} (e : exn) : grows Q (A := A) (raise e).
Proof. apply grows_nil. intros w r w' E. now inversion E. Qed.

Lemma grows_get_fs : grows Q get_fs.
Proof. apply grows_nil. intros w r w' E. now inversion E. Qed.

Lemma grows_set_fs f : grows Q (set_fs f).
Proof. apply grows_nil. intros w r w' E. now inversion E. Qed.

Lemma grows_path_exists p : grows Q (path_exists p).
Proof. apply grows_nil. intros w r w' E. now inversion E. Qed.

Lemma grows_log e : Q e -> grows Q (log e).
Proof. intros He w r w' E. inversion E; subst. exists [e]. simpl. auto. Qed.

Lemma grows_bind {A B} (m : M A) (k : A -> M B) :
  grows Q m -> (forall a, grows Q (k a)) -> grows Q (bind m k).
Proof.
  intros Hm Hk w r w' H. unfold bind in H.
  destruct (m w) as [[a|e] w1] eqn:E.
  - destruct (Hm _ _ _ E) as (l1 & T1 & F1).
    destruct (Hk a _ _ _ H) as (l2 & T2 & F2).
    exists (l1 ++ l2)%list. split.
    + rewrite T2, T1. now rewrite app_assoc.
    + now apply Forall_app.
  - inversion H; subst. exact (Hm _ _ _ E).
Qed.

Lemma grows_if {A} (b : bool) (m1 m2 : M A) : grows Q m1 -> grows Q m2 -> grows Q (if b then m1 else m2).
Proof. now destruct b. Qed.

Lemma grows_lift {A} (r : result A) : grows Q (lift r).
Proof. destruct r; [apply grows_ret | apply grows_raise]. Qed.

Create HintDb grows.
#[local] Hint Resolve grows_ret grows_raise grows_get_fs grows_set_fs grows_path_exists
  grows_log grows_bind grows_if grows_lift : grows.

Ltac grows_solve :=
  repeat (intros; lazymatch goal with
    | |- grows _ (bind _ _) => apply grows_bind
    | |- grows _ (if _ then _ else _) => apply grows_if
    | |- grows _ (match ?x with _ => _ end) => destruct x
    | |- grows _ (let _ := _ in _) => cbv zeta
    | _ => eauto with grows
    end).

Lemma grows_check_output cmd cwd : grows Q (check_output run_oracle cmd cwd).
Proof.
  unfold check_output. destruct (args_to_argv cmd) as [argv|e]; [|apply grows_raise].
  intros w r w' E. destruct (run_oracle w argv cwd) as [o f'].
  exists [ERun argv cwd]. split; [|auto].
  destruct o as [[|c] out|msg]; inversion E; reflexivity.
Qed.

Lemma grows_rmtree p : grows Q (rmtree p).
Proof. unfold rmtree. grows_solve. Qed.

Lemma grows_makedirs_aux pre rest : grows Q (makedirs_aux pre rest).
Proof.
  revert pre. induction rest as [|c r IH]; intros pre; simpl; [apply grows_ret|].
  apply grows_bind; [apply grows_get_fs|]. intros f.
  destruct (f !! (pre ++ [c])%list) as [[]|].
  - destruct r; apply grows_raise.
  - apply IH.
  - repeat apply grows_bind; intros; auto with grows.
Qed.

Lemma grows_write_text p c : Q (EWrite p) -> grows Q (write_text p c).
Proof. intros Hp. unfold write_text. grows_solve. Qed.

Lemma grows_os_rmdir p : grows Q (os_rmdir p).
Proof. unfold os_rmdir. grows_solve. Qed.

Lemma grows_mkdtemp : grows Q mkdtemp.
Proof.
  intros w r w' E. unfold mkdtemp in E.
  destruct (mkdtemp_search _ _ _) as [p|]; inversion E; subst.
  - eexists. simpl. split; [reflexivity | auto].
  - exists []. split; [symmetry; apply app_nil_r | auto].
Qed.

#[local] Hint Resolve grows_check_output grows_rmtree grows_makedirs_aux grows_os_rmdir
  grows_mkdtemp : grows.

Lemma grows_post_setup p v : grows Q (post_setup run_oracle p v).
Proof.
  unfold post_setup. apply grows_bind; [apply grows_mkdtemp|].
  intros tmp w r w' E. cbv zeta beta in E.
  match type of E with context [check_output ?ro ?c ?d w] =>
    destruct (check_output ro c d w) as [r1 w1] eqn:E1 end.
  destruct (os_rmdir tmp w1) as [r2 w2] eqn:E2.
  destruct (grows_check_output _ _ _ _ _ E1) as (l1 & T1 & F1).
  destruct (grows_os_rmdir _ _ _ _ E2) as (l2 & T2 & F2).
  assert (w' = w2) as -> by (destruct r2, r1; inversion E; reflexivity).
  exists (l1 ++ l2)%list. split; [rewrite T2, T1; now rewrite app_assoc | now apply Forall_app].
Qed.

Lemma grows_env_create p v : grows Q (env_create run_oracle venv_oracle p v).
Proof.
  intros w r w' E. unfold env_create in E.
  destruct (venv_oracle w p) as [f|e].
  - destruct (grows_post_setup _ _ _ _ _ E) as (l & T & F).
    exists (EVenv p :: l). simpl in T. rewrite T, <- app_assoc. split; [reflexivity | auto].
  - inversion E; subst. exists [EVenv p]. split; [reflexivity | auto].
Qed.

#[local] Hint Resolve grows_post_setup grows_env_create : grows.

Lemma grows_make_venv d v : grows Q (make_venv run_oracle venv_oracle d v).
Proof. unfold make_venv, makedirs. grows_solve. Qed.

#[local] Hint Resolve grows_make_venv : grows.

Lemma grows_homebrew_formula_template d v :
  grows Q (homebrew_formula_template run_oracle venv_oracle d v).
Proof. unfold homebrew_formula_template. grows_solve. Qed.

Lemma grows_create_homebrew_formula t v hp :
  Q (EWrite (hp ++ ["Formula"; homebrew_filename v])%list) ->
  grows Q (create_homebrew_formula t v hp).
Proof.
  intros Hw. unfold create_homebrew_formula. grows_solve.
  apply grows_write_text. rewrite <- app_assoc. exact Hw.
Qed.

Lemma grows_homebrew_run_tests fp : grows Q (homebrew_run_tests run_oracle fp).
Proof. unfold homebrew_run_tests. grows_solve. Qed.

Lemma grows_homebrew_commit_formula fp v hp : grows Q (homebrew_commit_formula run_oracle fp v hp).
Proof. unfold homebrew_commit_formula. grows_solve. Qed.

End Effects.

Lemma homebrew_filename_not_default v : homebrew_filename v <> "dbt.rb".
Proof. unfold homebrew_filename. rewrite !str_app_cons. congruence. Qed.

Lemma bind_ok_inv {A B} (m : M A) (k : A -> M B) w b w' :
  bind m k w = (Ok b, w') -> exists a w1, m w = (Ok a, w1) /\ k a w1 = (Ok b, w').
Proof. unfold bind. destruct (m w) as [[a|e] w1]; intros H; [eauto | discriminate]. Qed.

Lemma check_output_ok_trace (ro : world -> list string -> option path -> proc_outcome * fsys)
    (cmd : list arg) argv cwd w out w' :
  args_to_argv cmd = Ok argv -> check_output ro cmd cwd w = (Ok out, w') ->
  trace w' = (trace w ++ [ERun argv cwd])%list.
Proof.
  intros Ha. unfold check_output. rewrite Ha. destruct (ro w argv cwd) as [o f'].
  destruct o as [[|c] o|msg]; intros H; inversion H; reflexivity.
Qed.

Lemma grows_bind_raise (Q : event -> Prop) {A B} (e : exn) (k : A -> M B) :
  grows Q (bind (raise e) k).
Proof. apply grows_nil. intros w r w' E. unfold bind, raise in E. now inversion E. Qed.

Lemma formula_path_not_default (hp : path) v :
  keeps (hp ++ ["Formula"; "dbt.rb"])%list (EWrite (hp ++ ["Formula"; homebrew_filename v])%list).
Proof.
  simpl. intros H. apply app_inv_head in H.
  apply (homebrew_filename_not_default v). congruence.
Qed.

(** C7: the update of the default formula is never run by
    [build_homebrew_package] (with assertions enabled, as Python runs
    without [-O]).  With the flag set, the run is the run without it up to
    its end, and a run that would have succeeded fails instead on the
    assertion, after the commit of the versioned formula, which is the last
    effect of a successful run.  With either flag value, no effect of the
    run removes or writes [Formula/dbt.rb]. *)
Theorem build_homebrew_package_never_sets_default
    (ro : world -> list string -> option path -> proc_outcome * fsys)
    (vo : world -> path -> result fsys) (dbt_path : path) (v : Version) (hp : path) (w : world) :
  build_homebrew_package ro vo dbt_path v hp true w =
    match build_homebrew_package ro vo dbt_path v hp false w with
    | (Ok _, w') => (Err (AssertionError "should not be set!!!"), w')
    | r => r
    end /\
  (forall p w', build_homebrew_package ro vo dbt_path v hp false w = (Ok p, w') ->
     exists pre, trace w' =
       (pre ++ [ERun ["git"; "commit"; "-m"; ("add dbt@" ++ Version_str v)%string] (Some hp)])%list) /\
  (forall sd, exists l,
     trace (build_homebrew_package ro vo dbt_path v hp sd w).2 = (trace w ++ l)%list /\
     Forall (keeps (hp ++ ["Formula"; "dbt.rb"])%list) l).
Proof.
  split; [|split].
  - unfold build_homebrew_package, bind.
    destruct (homebrew_formula_template ro vo dbt_path v w) as [[t|e] w1]; [|reflexivity].
    destruct (create_homebrew_formula t v hp w1) as [[fp|e] w2]; [|reflexivity].
    destruct (homebrew_run_tests ro fp w2) as [[[]|e] w3]; [|reflexivity].
    destruct (homebrew_commit_formula ro fp v hp w3) as [[[]|e] w4]; reflexivity.
  - intros p w' H. unfold build_homebrew_package in H.
    apply bind_ok_inv in H as (t & w1 & _ & H).
    apply bind_ok_inv in H as (fp & w2 & _ & H).
    apply bind_ok_inv in H as (u1 & w3 & _ & H).
    apply bind_ok_inv in H as (u2 & w4 & Hc & H).
    unfold bind, ret in H. simpl in H. inversion H; subst w'.
    unfold homebrew_commit_formula in Hc.
    apply bind_ok_inv in Hc as (o1 & wa & _ & Hc).
    apply bind_ok_inv in Hc as (o2 & wb & Hc & Hr).
    unfold ret in Hr. inversion Hr; subst w4.
    eexists. refine (check_output_ok_trace ro _ _ _ _ _ _ _ Hc). reflexivity.
  - intros sd.
    assert (G : grows (keeps (hp ++ ["Formula"; "dbt.rb"])%list)
                  (build_homebrew_package ro vo dbt_path v hp sd)).
    { unfold build_homebrew_package.
      repeat first
        [ apply grows_bind_raise | eapply grows_homebrew_formula_template | eapply grows_homebrew_run_tests
        | eapply grows_homebrew_commit_formula
        | apply grows_create_homebrew_formula; apply formula_path_not_default
        | apply grows_bind | apply grows_if | apply grows_ret | apply grows_raise
        | intros; exact I | intros ]. }
    destruct (build_homebrew_package ro vo dbt_path v hp sd w) as [r w'] eqn:E.
    exact (G w r w' E).
Qed.

Lemma build_homebrew_package_never_sets_default_witness :
  (exists p w',
     build_homebrew_package (ok_run sample_resource_block) ok_venv ["dbt"] v0152 ["hb"] false hb_world
       = (Ok p, w') /\
     exists pre, trace w' =
       (pre ++ [ERun ["git"; "commit"; "-m"; ("add dbt@" ++ Version_str v0152)%string] (Some ["hb"])])%list) /\
  fst (build_homebrew_package (ok_run sample_resource_block) ok_venv ["dbt"] v0152 ["hb"] true hb_world)
    = Err (AssertionError "should not be set!!!").
Proof.
  destruct (build_homebrew_package_never_sets_default (ok_run sample_resource_block) ok_venv
              ["dbt"] v0152 ["hb"] hb_world) as [Ht [Hc _]].
  split.
  - eexists. eexists. split; [vm_compute; reflexivity|]. eapply Hc. vm_compute. reflexivity.
  - rewrite Ht. vm_compute. reflexivity.
Defined.

(* ================================================================== *)
(** * Further properties of the script *)

(* ------------------------------------------------------------------ *)
(** ** [split('\n')], [strip()] and [title()] *)

Lemma split_nl_nonempty (s : string) : split_nl s <> [].
Proof.
  induction s as [|c r IH]; simpl; [discriminate|].
  destruct (Ascii.eqb c newline); [discriminate|].
  destruct (split_nl r); discriminate.
Qed.

Lemma concat_cons_string (sep : string) (c : ascii) (l : string) (ls : list string) :
  String.concat sep (String c l :: ls) = String c (String.concat sep (l :: ls)).
Proof. destruct ls; reflexivity. Qed.

(** [s.split('\n')] cuts [s] at every newline: joining the pieces with
    newlines gives [s] back, and no piece contains a newline. *)
Theorem split_nl_join (s : string) :
  String.concat (String newline "") (split_nl s) = s /\
  Forall (fun l => all_chars (fun c => negb (Ascii.eqb c newline)) l = true) (split_nl s).
Proof.
  induction s as [|c r [IHj IHf]]; [split; [reflexivity | repeat constructor]|]. simpl.
  destruct (Ascii.eqb c newline) eqn:Hc.
  - apply Ascii.eqb_eq in Hc. subst c. split; [|constructor; [reflexivity | exact IHf]].
    pose proof (split_nl_nonempty r) as Hne.
    destruct (split_nl r) as [|l ls]; [congruence|].
    transitivity (String newline (String.concat (String newline "") (l :: ls)));
      [reflexivity | now rewrite IHj].
  - pose proof (split_nl_nonempty r) as Hne.
    destruct (split_nl r) as [|l ls]; [congruence|]. split.
    + rewrite concat_cons_string, IHj. reflexivity.
    + inversion IHf; subst. constructor; [simpl; now rewrite Hc | assumption].
Qed.

Lemma lstrip_spec (s : string) :
  exists pre, s = pre ++ lstrip s /\ starts_with is_py_space (lstrip s) = false.
Proof.
  induction s as [|c r (pre & Hr & Hs)]; [now exists ""|]. simpl.
  destruct (is_py_space c) eqn:Hc.
  - exists (String c pre). rewrite str_app_cons. split; [now f_equal | exact Hs].
  - exists "". split; [reflexivity | exact Hc].
Qed.

Lemma lstrip_id (s : string) : starts_with is_py_space s = false -> lstrip s = s.
Proof. destruct s as [|c r]; simpl; [reflexivity|]. now intros ->. Qed.

Lemma string_rev_app (a b : string) : string_rev (a ++ b) = string_rev b ++ string_rev a.
Proof.
  induction a as [|c a IH].
  - simpl. now rewrite str_app_nil_r.
  - rewrite str_app_cons. simpl. rewrite IH. apply str_app_assoc.
Qed.

Lemma string_rev_involutive (s : string) : string_rev (string_rev s) = s.
Proof.
  induction s as [|c r IH]; [reflexivity|]. simpl.
  rewrite string_rev_app, IH. reflexivity.
Qed.

Lemma string_rev_nonempty (s : string) : s <> "" -> string_rev s <> "".
Proof.
  destruct s as [|c r]; [congruence|]. intros _. simpl.
  destruct (string_rev r); discriminate.
Qed.

Lemma starts_with_app (p : ascii -> bool) (a b : string) :
  a <> "" -> starts_with p (a ++ b) = starts_with p a.
Proof. destruct a; [congruence|]. reflexivity. Qed.

Lemma strip_props (s : string) :
  starts_with is_py_space (strip s) = false /\
  starts_with is_py_space (string_rev (strip s)) = false /\
  strip (strip s) = strip s.
Proof.
  unfold strip.
  destruct (lstrip_spec s) as (y0 & _ & Ha).
  set (a := lstrip s) in *.
  destruct (lstrip_spec (string_rev a)) as (y & Hy & Hb).
  set (b := lstrip (string_rev a)) in *.
  assert (H1 : starts_with is_py_space (string_rev b) = false).
  { destruct (String.string_dec b "") as [->|Hne]; [reflexivity|].
    assert (Ha' : a = string_rev b ++ string_rev y)
      by (rewrite <- (string_rev_involutive a), Hy; apply string_rev_app).
    rewrite Ha' in Ha. rewrite starts_with_app in Ha; [exact Ha|].
    now apply string_rev_nonempty. }
  split; [exact H1|]. split; [now rewrite string_rev_involutive|].
  rewrite (lstrip_id _ H1), string_rev_involutive, (lstrip_id _ Hb). reflexivity.
Qed.

(** [str.strip()] leaves no whitespace at either end of its result, so
    stripping twice is stripping once. *)
Theorem strip_trims (s : string) :
  starts_with is_py_space (strip s) = false /\
  starts_with is_py_space (string_rev (strip s)) = false /\
  strip (strip s) = strip s.
Proof. exact (strip_props s). Qed.

Lemma extract_loop_lines (collecting : bool) (lines : list string) :
  Forall (fun l => strip l = l /\ l <> "end") (extract_loop collecting lines).
Proof.
  revert collecting. induction lines as [|l rest IH]; intros collecting; simpl; [constructor|].
  destruct collecting; simpl.
  - destruct (String.eqb_spec (strip l) "end"); [constructor|].
    constructor; [split; [apply strip_props | assumption] | apply IH].
  - destruct (String.eqb (strip l) resource_dbt_do); apply IH.
Qed.

(** Every line [_extract_parts] yields is stripped and is not [end]; an
    output without the marker line yields nothing. *)
Theorem extract_parts_lines (poet_data : string) :
  Forall (fun l => strip l = l /\ l <> "end") (_extract_parts poet_data) /\
  (Forall (fun l => strip l <> resource_dbt_do) (split_nl poet_data) ->
   _extract_parts poet_data = []).
Proof.
  split; [apply extract_loop_lines|].
  unfold _extract_parts. induction (split_nl poet_data) as [|l rest IH]; intros H; [reflexivity|].
  inversion H; subst. simpl.
  destruct (String.eqb_spec (strip l) resource_dbt_do); [contradiction | now apply IH].
Qed.

Lemma lower_id (c : ascii) : is_lower c = true -> lower c = c.
Proof. ascii_cases c. Qed.

(** [str.title()] on a lower-case tag such as [rc] or [b] upper-cases its
    first letter and keeps the others. *)
Theorem title_lower_tag (c : ascii) (r : string) :
  is_lower c = true -> all_chars is_lower r = true -> title (String c r) = String (upper c) r.
Proof.
  intros Hc Hr. unfold title. simpl. rewrite (lower_alpha c Hc). f_equal.
  clear Hc. induction r as [|d r IH]; [reflexivity|]. simpl in *.
  apply andb_true_iff in Hr as [Hd Hr].
  rewrite (lower_alpha d Hd), (lower_id d Hd), (IH Hr). reflexivity.
Qed.

(* ------------------------------------------------------------------ *)
(** ** Formula names of versions *)

Lemma match_pre_tag (s t r : string) n :
  match_pre s = (Some t, n, r) -> t <> "" /\ all_chars is_lower t = true.
Proof.
  unfold match_pre. destruct (span is_lower s) as [a b] eqn:Hs.
  destruct (span_spec _ _ _ _ Hs) as (_ & Ha & _).
  destruct a as [|c a]; [intros H; inversion H|].
  destruct (match_digits b) as [[x y]|]; intros H; inversion H; subst.
  split; [discriminate | exact Ha].
Qed.

(** The versions construction returns: no prerelease, or a non-empty
    lower-case tag with a number. *)
Lemma Version_init_shape (s : string) (v : Version) :
  Version_init s = Ok v ->
  (prerelease v = None /\ num v = None) \/
  exists t k, prerelease v = Some t /\ num v = Some k /\ t <> "" /\ all_chars is_lower t = true.
Proof.
  unfold Version_init, VERSION_PATTERN_match.
  destruct (match_digits s) as [[ma r0]|]; [|discriminate].
  destruct (match_dot r0) as [r1|]; [|discriminate].
  destruct (match_digits r1) as [[mi r2]|]; [|discriminate].
  destruct (match_dot r2) as [r3|]; [|discriminate].
  destruct (match_digits r3) as [[pa r4]|]; [|discriminate].
  destruct (match_pre r4) as [[pre n] r5] eqn:Hp. simpl.
  destruct n as [n|]; intros H; inversion H; subst; simpl; [|left; auto].
  destruct pre as [t|].
  - right. exists t, (py_int n). destruct (match_pre_tag _ _ _ _ Hp). auto.
  - apply match_pre_pair in Hp. destruct Hp as [Hp _]. discriminate (Hp eq_refl).
Qed.

Lemma filename_tail_inj (t1 t2 : string) (k1 k2 : nat) :
  all_chars is_lower t1 = true -> all_chars is_lower t2 = true ->
  t1 ++ py_str k1 ++ ".rb" = t2 ++ py_str k2 ++ ".rb" -> t1 = t2 /\ k1 = k2.
Proof.
  intros H1 H2 H.
  pose proof (f_equal (span is_lower) H) as Hs.
  rewrite (span_app _ _ _ H1 (py_str_first_digit _ _)),
          (span_app _ _ _ H2 (py_str_first_digit _ _)) in Hs.
  injection Hs as -> Hr. split; [reflexivity|].
  pose proof (f_equal (span is_digit) Hr) as Hd.
  rewrite (span_app is_digit (py_str k1) ".rb" (py_str_digits k1) eq_refl),
          (span_app is_digit (py_str k2) ".rb" (py_str_digits k2) eq_refl) in Hd.
  injection Hd as Hk. rewrite <- (py_int_py_str k1), <- (py_int_py_str k2). now f_equal.
Qed.

Lemma homebrew_filename_split (v : Version) :
  homebrew_filename v =
    "dbt@" ++ py_str (major v) ++ "." ++ py_str (minor v) ++ "." ++ py_str (patch v) ++
    (match prerelease v, num v with
     | Some p, Some n => "-" ++ p ++ py_str n ++ ".rb"
     | _, _ => ".rb"
     end).
Proof.
  unfold homebrew_filename.
  destruct (prerelease v), (num v); rewrite ?str_app_assoc; reflexivity.
Qed.

Lemma str_app_inv_head (a b c : string) : a ++ b = a ++ c -> b = c.
Proof.
  induction a as [|x a IH]; [now rewrite !str_app_nil_l|].
  rewrite !str_app_cons. intros H. injection H as H. exact (IH H).
Qed.

Lemma VERSION_PATTERN_match_filename (M N P : nat) (X : string) :
  starts_with is_digit X = false -> match_pre X = (None, None, X) ->
  VERSION_PATTERN_match (py_str M ++ "." ++ py_str N ++ "." ++ py_str P ++ X) =
    Some (mk_groups (py_str M) (py_str N) (py_str P) None None, X).
Proof.
  intros Hd Hp.
  rewrite (VERSION_PATTERN_match_app _ _ _ _ (py_str_run _) (py_str_run _) (py_str_run _) Hd).
  now rewrite Hp.
Qed.

(** Distinct versions get distinct formula files: two versions that
    construction returns have the same [homebrew_filename] only when their
    numbers and prerelease tags are the same (whatever text follows in the
    raw strings). *)
Theorem homebrew_filename_injective (s1 s2 : string) (v1 v2 : Version) :
  Version_init s1 = Ok v1 -> Version_init s2 = Ok v2 ->
  homebrew_filename v1 = homebrew_filename v2 ->
  major v1 = major v2 /\ minor v1 = minor v2 /\ patch v1 = patch v2 /\
  prerelease v1 = prerelease v2 /\ num v1 = num v2.
Proof.
  intros E1 E2 H. rewrite !homebrew_filename_split in H. apply str_app_inv_head in H.
  set (X1 := match prerelease v1, num v1 with
             | Some p, Some n => "-" ++ p ++ py_str n ++ ".rb" | _, _ => ".rb" end) in H.
  set (X2 := match prerelease v2, num v2 with
             | Some p, Some n => "-" ++ p ++ py_str n ++ ".rb" | _, _ => ".rb" end) in H.
  assert (HX : forall v, let X := match prerelease v, num v with
                  | Some p, Some n => "-" ++ p ++ py_str n ++ ".rb" | _, _ => ".rb" end in
               starts_with is_digit X = false /\ match_pre X = (None, None, X)).
  { intros v X. unfold X. destruct (prerelease v), (num v); split; reflexivity. }
  pose proof (f_equal VERSION_PATTERN_match H) as HV.
  rewrite (VERSION_PATTERN_match_filename _ _ _ X1 (proj1 (HX v1)) (proj2 (HX v1))) in HV.
  rewrite (VERSION_PATTERN_match_filename _ _ _ X2 (proj1 (HX v2)) (proj2 (HX v2))) in HV.
  injection HV as HM HN HP HX12.
  assert (Hinj : forall a b, py_str a = py_str b -> a = b)
    by (intros a b Hab; rewrite <- (py_int_py_str a), <- (py_int_py_str b); now f_equal).
  split; [now apply Hinj|]. split; [now apply Hinj|]. split; [now apply Hinj|].
  unfold X1, X2 in HX12. revert HX12.
  destruct (Version_init_shape _ _ E1) as [[-> ->] | (t1 & k1 & -> & -> & _ & Ht1)];
  destruct (Version_init_shape _ _ E2) as [[-> ->] | (t2 & k2 & -> & -> & _ & Ht2)];
    intros HX12; try (split; reflexivity); try discriminate HX12.
  apply (str_app_inv_head "-") in HX12.
  destruct (filename_tail_inj _ _ _ _ Ht1 Ht2 HX12) as [-> ->]. split; reflexivity.
Qed.

Lemma homebrew_filename_injective_witness :
  exists v1 v2,
    Version_init "0.16.0b1" = Ok v1 /\ Version_init "0.16.0b1+local" = Ok v2 /\
    homebrew_filename v1 = homebrew_filename v2 /\
    major v1 = major v2 /\ minor v1 = minor v2 /\ patch v1 = patch v2 /\
    prerelease v1 = prerelease v2 /\ num v1 = num v2.
Proof.
  eexists. eexists. split; [reflexivity|]. split; [reflexivity|]. split; [reflexivity|].
  apply (homebrew_filename_injective "0.16.0b1" "0.16.0b1+local"); reflexivity.
Defined.

(** The class name is not injective: it writes the three numbers with no
    separator, so [1.11.0] and [11.1.0] go to different formula files that
    both declare the class [DbtAT1110]; in general two versions with the
    same prerelease whose numbers concatenate to the same digits share the
    class name. *)
Theorem homebrew_class_name_collision :
  (forall v1 v2 : Version,
     prerelease v1 = prerelease v2 -> num v1 = num v2 ->
     py_str (major v1) ++ py_str (minor v1) ++ py_str (patch v1) =
     py_str (major v2) ++ py_str (minor v2) ++ py_str (patch v2) ->
     homebrew_class_name v1 = homebrew_class_name v2) /\
  exists v1 v2,
    Version_init "1.11.0" = Ok v1 /\ Version_init "11.1.0" = Ok v2 /\
    homebrew_filename v1 <> homebrew_filename v2 /\
    homebrew_class_name v1 = "DbtAT1110" /\ homebrew_class_name v2 = "DbtAT1110".
Proof.
  split.
  - intros v1 v2 Hp Hn Hd. unfold homebrew_class_name. now rewrite Hp, Hn, Hd.
  - eexists. eexists. split; [reflexivity|]. split; [reflexivity|].
    split; [vm_compute; discriminate|]. split; reflexivity.
Qed.

(* ------------------------------------------------------------------ *)
(** ** The two renderings of the formula *)

(** [contents(versioned=False)], the text of the default formula, is the
    versioned formula with its class name replaced by [Dbt]: both start
    with [class] and the class name on the line after a newline, and the
    text after the class name is the same. *)
Theorem contents_default_vs_versioned (t : DbtHomebrewTemplate) :
  exists rest,
    contents t true = String newline ("class " ++ homebrew_class_name (version t) ++ rest) /\
    contents t false = String newline ("class Dbt" ++ rest).
Proof.
  set (tail := skipn 2 DBT_HOMEBREW_FORMULA).
  assert (HD : DBT_HOMEBREW_FORMULA =
               ([FLit (String newline "class "); FField "formula_name"] ++ tail)%list)
    by reflexivity.
  unfold contents. rewrite HD, !format_app.
  eexists. split; [reflexivity|]. reflexivity.
Qed.

(* ------------------------------------------------------------------ *)
(** ** File-system operations *)

(** The entries [makedirs_aux pre rest] creates: [pre] followed by a
    non-empty prefix of [rest]. *)
Lemma under_cons (pre : path) (c : string) (r k : path) :
  (exists q, q <> [] /\ q `prefix_of` (c :: r) /\ k = (pre ++ q)%list) <->
  k = (pre ++ [c])%list \/ exists q, q <> [] /\ q `prefix_of` r /\ k = ((pre ++ [c]) ++ q)%list.
Proof.
  split.
  - intros (q & Hq & [z Hz] & ->). destruct q as [|x q]; [congruence|].
    injection Hz as -> Hr. destruct q as [|y q]; [now left|].
    right. exists (y :: q). split; [discriminate|]. split; [exists z; exact Hr|].
    now rewrite <- app_assoc.
  - intros [-> | (q & Hq & [z Hz] & ->)].
    + exists [c]. split; [discriminate|]. split; [exists r; reflexivity | reflexivity].
    + exists (c :: q). split; [discriminate|]. split; [exists z; now rewrite Hz|].
      now rewrite <- app_assoc.
Qed.

Lemma app_self_nil (l q : path) : l = (l ++ q)%list -> q = [].
Proof. intros H. apply (app_inv_head l). rewrite app_nil_r. now symmetry. Qed.

Lemma makedirs_aux_effect (rest pre : path) (w : world) :
  (forall q c, q <> [] -> q `prefix_of` rest -> fs w !! (pre ++ q)%list <> Some (File c)) ->
  exists w', makedirs_aux pre rest w = (Ok tt, w') /\
    (forall q, q <> [] -> q `prefix_of` rest -> fs w' !! (pre ++ q)%list = Some Dir) /\
    (forall k, ~ (exists q, q <> [] /\ q `prefix_of` rest /\ k = (pre ++ q)%list) ->
       fs w' !! k = fs w !! k).
Proof.
  revert pre w. induction rest as [|c r IH]; intros pre w Hw.
  - exists w. split; [reflexivity|]. split.
    + intros q Hq [z Hz]. destruct q; [congruence | discriminate].
    + reflexivity.
  - assert (Hw' : forall q c', q <> [] -> q `prefix_of` r ->
              fs w !! ((pre ++ [c]) ++ q)%list <> Some (File c')).
    { intros q c' Hq Hp. rewrite <- app_assoc. apply Hw; [discriminate|].
      destruct Hp as [z ->]. exists z. reflexivity. }
    assert (Hc : forall c', fs w !! (pre ++ [c])%list <> Some (File c'))
      by (intros c'; apply Hw; [discriminate | exists r; reflexivity]).
    simpl. unfold bind at 1, get_fs.
    destruct (fs w !! (pre ++ [c])%list) as [[c'|]|] eqn:Hx.
    + exfalso. exact (Hc c' eq_refl).
    + destruct (IH (pre ++ [c])%list w Hw') as (w' & E & Hin & Hout).
      exists w'. split; [exact E|]. split.
      * intros q Hq Hp.
        destruct (proj1 (under_cons pre c r _) (ex_intro _ q (conj Hq (conj Hp eq_refl))))
          as [Hk | (q' & Hq' & Hp' & Hk)]; rewrite Hk.
        -- rewrite Hout; [exact Hx|].
           intros (q' & Hq' & _ & Heq). exact (Hq' (app_self_nil _ _ Heq)).
        -- exact (Hin q' Hq' Hp').
      * intros k Hk. rewrite Hout; [reflexivity|]. intros Hk'. apply Hk, under_cons. now right.
    + set (w1 := mk_world (<[(pre ++ [c])%list := Dir]> (fs w))
                          (trace w ++ [EMkdir (pre ++ [c])%list])%list).
      assert (Hw1 : forall q c', q <> [] -> q `prefix_of` r ->
                fs w1 !! ((pre ++ [c]) ++ q)%list <> Some (File c')).
      { intros q c' Hq Hp. simpl. rewrite lookup_insert_ne; [exact (Hw' q c' Hq Hp)|].
        intros Heq. exact (Hq (app_self_nil _ _ Heq)). }
      destruct (IH (pre ++ [c])%list w1 Hw1) as (w' & E & Hin & Hout).
      exists w'. split; [exact E|]. split.
      * intros q Hq Hp.
        destruct (proj1 (under_cons pre c r _) (ex_intro _ q (conj Hq (conj Hp eq_refl))))
          as [Hk | (q' & Hq' & Hp' & Hk)]; rewrite Hk.
        -- rewrite Hout; [apply lookup_insert_eq|].
           intros (q' & Hq' & _ & Heq). exact (Hq' (app_self_nil _ _ Heq)).
        -- exact (Hin q' Hq' Hp').
      * intros k Hk. rewrite Hout.
        -- simpl. apply lookup_insert_ne. intros Heq. apply Hk, under_cons. left. now symmetry.
        -- intros Hk'. apply Hk, under_cons. now right.
Qed.

(** [os.makedirs(p, exist_ok=True)] when no prefix of [p] is a file: every
    non-empty prefix of [p] is then a directory, existing ones are kept
    and no other entry changes. *)
Theorem makedirs_creates_prefixes (p : path) (w : world) :
  (forall q c, q <> [] -> q `prefix_of` p -> fs w !! q <> Some (File c)) ->
  exists w', makedirs p w = (Ok tt, w') /\
    (forall q, q <> [] -> q `prefix_of` p -> fs w' !! q = Some Dir) /\
    (forall k, ~ (k <> [] /\ k `prefix_of` p) -> fs w' !! k = fs w !! k).
Proof.
  intros H. destruct (makedirs_aux_effect p [] w H) as (w' & E & Hin & Hout).
  exists w'. split; [exact E|]. split; [exact Hin|].
  intros k Hk. apply Hout. intros (q & Hq & Hp & ->). now apply Hk.
Qed.

Lemma makedirs_creates_prefixes_witness :
  exists w', makedirs ["dbt"; "build"] dist_world = (Ok tt, w') /\
    (forall q, q <> [] -> q `prefix_of` ["dbt"; "build"] -> fs w' !! q = Some Dir) /\
    (forall k, ~ (k <> [] /\ k `prefix_of` ["dbt"; "build"]) -> fs w' !! k = fs dist_world !! k).
Proof.
  apply makedirs_creates_prefixes. intros q c Hq [z Hz].
  destruct q as [|x [|y [|u q]]]; [congruence | | |].
  - injection Hz as <- _. vm_compute. discriminate.
  - injection Hz as <- <- _. vm_compute. discriminate.
  - injection Hz as _ _ Hz. destruct z; discriminate.
Defined.

(* ------------------------------------------------------------------ *)
(** ** The package glob *)

Lemma ends_with_unfold (suf s : string) :
  ends_with suf s =
    if String.eqb s suf then true
    else match s with EmptyString => false | String _ r => ends_with suf r end.
Proof. destruct s; reflexivity. Qed.

Lemma ends_with_spec (suf s : string) :
  ends_with suf s = true <-> exists stem, s = stem ++ suf.
Proof.
  split.
  - induction s as [|c r IH]; rewrite ends_with_unfold; intros H.
    + destruct (String.eqb_spec "" suf) as [Heq|]; [exists ""; now rewrite <- Heq | discriminate].
    + destruct (String.eqb_spec (String c r) suf) as [Heq|_]; [exists ""; now rewrite <- Heq|].
      destruct (IH H) as [stem ->]. now exists (String c stem).
  - intros [stem ->]. induction stem as [|c stem IH].
    + change ("" ++ suf) with suf. rewrite ends_with_unfold, String.eqb_refl. reflexivity.
    + change (String c stem ++ suf) with (String c (stem ++ suf)).
      rewrite ends_with_unfold. destruct (String.eqb _ suf); [reflexivity | exact IH].
Qed.

Lemma child_name_spec (p q : path) (n : string) :
  child_name p q = Some n <-> q = (p ++ [n])%list.
Proof.
  revert q. induction p as [|a p IH]; intros q.
  - destruct q as [|b [|c q]]; simpl; split; intros H; congruence.
  - destruct q as [|b q]; simpl; [split; intros H; congruence|].
    destruct (String.eqb_spec a b) as [<-|Hab].
    + rewrite IH. split; intros H; [now f_equal | now injection H].
    + split; intros H; congruence.
Qed.

Lemma glob_suffix_spec (f : fsys) (p : path) (suf : string) (q : path) :
  q ∈ glob_suffix f p suf <->
  exists n, q = (p ++ [n])%list /\ is_Some (f !! q) /\ ends_with suf n = true.
Proof.
  unfold glob_suffix. rewrite list_elem_of_filter, list_elem_of_In, in_map_iff.
  unfold glob_match. split.
  - intros [Hm [[q' x] [Hq Hx]]]. simpl in Hq. subst q'.
    destruct (child_name p q) as [n|] eqn:Hc; [|discriminate].
    exists n. split; [now apply child_name_spec|]. split; [|exact Hm].
    exists x. apply elem_of_map_to_list. now apply list_elem_of_In.
  - intros (n & Hq & [x Hx] & He). split.
    + rewrite (proj2 (child_name_spec p q n) Hq). exact He.
    + exists (q, x). split; [reflexivity|]. apply list_elem_of_In.
      now apply elem_of_map_to_list.
Qed.

Lemma packages_spec (f : fsys) (p q : path) :
  q ∈ (glob_suffix f p ".tar.gz" ++ glob_suffix f p ".whl")%list <->
  exists n, q = (p ++ [n])%list /\ is_Some (f !! q) /\
    ((exists stem, n = stem ++ ".tar.gz") \/ (exists stem, n = stem ++ ".whl")).
Proof.
  rewrite elem_of_app, !glob_suffix_spec. split.
  - intros [(n & Hq & Hs & He)|(n & Hq & Hs & He)]; exists n;
      rewrite ends_with_spec in He; tauto.
  - intros (n & Hq & Hs & [He|He]); rewrite <- ends_with_spec in He; [left|right];
      exists n; tauto.
Qed.

(** [_all_packages_in(p)] lists exactly the entries directly in [p] whose
    name ends with [.tar.gz] or [.whl], and changes nothing. *)
Theorem all_packages_in_members (p : path) (w : world) :
  exists pkgs, _all_packages_in p w = (Ok pkgs, w) /\
    forall q, q ∈ pkgs <->
      exists n, q = (p ++ [n])%list /\ is_Some (fs w !! q) /\
        ((exists stem, n = stem ++ ".tar.gz") \/ (exists stem, n = stem ++ ".whl")).
Proof.
  eexists. split; [reflexivity|]. intros q. apply packages_spec.
Qed.

(* ------------------------------------------------------------------ *)
(** ** Arguments of subprocesses *)

Lemma args_to_argv_cases (l : list arg) :
  (exists v, In (AVersion v) l /\
     args_to_argv l = Err (TypeError "expected str, bytes or os.PathLike object, not Version")) \/
  exists argv, args_to_argv l = Ok argv.
Proof.
  induction l as [|a r IH]; [right; now exists []|].
  destruct a as [s|q|v]; simpl.
  - destruct IH as [(v & Hv & ->)|[argv ->]]; [left; exists v; split; [now right | reflexivity]|].
    right. eexists. reflexivity.
  - destruct IH as [(v & Hv & ->)|[argv ->]]; [left; exists v; split; [now right | reflexivity]|].
    right. eexists. reflexivity.
  - left. exists v. split; [now left | reflexivity].
Qed.

Lemma args_to_argv_version (l : list arg) (v : Version) :
  In (AVersion v) l ->
  args_to_argv l = Err (TypeError "expected str, bytes or os.PathLike object, not Version").
Proof.
  induction l as [|a r IH]; [contradiction|]. intros [->|Hr]; [reflexivity|].
  simpl. rewrite (IH Hr). destruct a; reflexivity.
Qed.

(** [subprocess.check_output] raises [TypeError], before any process is
    started and without changing anything, exactly when one argument of
    the command is a [Version] object. *)
Theorem check_output_version_arg
    (ro : world -> list string -> option path -> proc_outcome * fsys)
    (cmd : list arg) (cwd : option path) (w : world) :
  (exists v, In (AVersion v) cmd) <->
  check_output ro cmd cwd w =
    (Err (TypeError "expected str, bytes or os.PathLike object, not Version"), w).
Proof.
  split.
  - intros [v Hv]. unfold check_output. rewrite (args_to_argv_version cmd v Hv). reflexivity.
  - intros H. destruct (args_to_argv_cases cmd) as [(v & Hv & _)|[argv Ha]]; [now exists v|].
    exfalso. unfold check_output in H. rewrite Ha in H.
    destruct (ro w argv cwd) as [o f'].
    assert (Hw : mk_world f' (trace w ++ [ERun argv cwd])%list = w)
      by (destruct o as [[|c] out|msg]; now inversion H).
    apply (f_equal (fun w => List.length (trace w))) in Hw. simpl in Hw.
    rewrite length_app in Hw. simpl in Hw. lia.
Qed.

(* ------------------------------------------------------------------ *)
(** ** The temporary directory of [post_setup] *)

Lemma mkdtemp_search_free (f : fsys) (n fuel : nat) (p : path) :
  mkdtemp_search f n fuel = Some p -> tmp_free f p = true.
Proof.
  revert n. induction fuel as [|k IH]; intros n; simpl; [discriminate|].
  destruct (tmp_free f (tmp_candidate n)) eqn:Ht.
  - intros [= <-]. exact Ht.
  - apply IH.
Qed.

Lemma tmp_free_lookup (f : fsys) (p k : path) :
  tmp_free f p = true -> p `prefix_of` k -> f !! k = None.
Proof.
  unfold tmp_free. intros Hf Hk. apply bool_decide_eq_true in Hf.
  destruct (f !! k) as [x|] eqn:Hx; [|reflexivity].
  exfalso. exact (map_filter_empty_not_lookup _ _ k x Hf Hk Hx).
Qed.

Lemma mkdtemp_ok (w w0 : world) (tmp : path) :
  mkdtemp w = (Ok tmp, w0) ->
  tmp_free (fs w) tmp = true /\ w0 = mk_world (<[tmp := Dir]> (fs w)) (trace w ++ [EMkdir tmp])%list.
Proof.
  unfold mkdtemp. destruct (mkdtemp_search _ _ _) as [p|] eqn:Hs; intros E; inversion E; subst.
  split; [exact (mkdtemp_search_free _ _ _ _ Hs) | reflexivity].
Qed.

(** [post_setup] runs [pip] inside a new temporary directory [tmp] that
    [mkdtemp] creates empty (nothing was at or below [tmp] before), and
    then calls [os.rmdir(tmp)] in the [finally] clause. If [pip] leaves
    [tmp] in place and empty, [tmp] is removed and the result is
    [pip]'s (its error re-raised). If [pip] leaves entries in [tmp],
    [os.rmdir] raises [OSError] (Errno 39), which replaces [pip]'s
    result, and [tmp] stays. *)
Theorem post_setup_finally
    (ro : world -> list string -> option path -> proc_outcome * fsys)
    (venv : path) (v : Version) (w w0 : world) (tmp : path) (r : result string) (w1 : world) :
  mkdtemp w = (Ok tmp, w0) ->
  check_output ro
    [APath (venv ++ ["bin"; "python"])%list; AStr "-m"; AStr "pip"; AStr "install";
     AStr "--upgrade"; AStr "homebrew-pypi-poet"; AStr ("dbt==" ++ Version_str v)]
    (Some tmp) w0 = (r, w1) ->
  is_dir (fs w1) tmp = true ->
  (forall k, tmp `prefix_of` k -> fs w !! k = None) /\
  fs w0 = <[tmp := Dir]> (fs w) /\ trace w0 = (trace w ++ [EMkdir tmp])%list /\
  ((forall k, tmp `prefix_of` k -> k <> tmp -> fs w1 !! k = None) ->
   post_setup ro venv v w =
     (match r with Ok _ => Ok tt | Err e => Err e end,
      mk_world (delete tmp (fs w1)) (trace w1 ++ [ERmdir tmp])%list)) /\
  ((exists k, tmp `prefix_of` k /\ k <> tmp /\ is_Some (fs w1 !! k)) ->
   post_setup ro venv v w = (Err (OSError "[Errno 39] Directory not empty"), w1) /\
   fs w1 !! tmp = Some Dir).
Proof.
  intros Hm Hc Hd.
  destruct (mkdtemp_ok _ _ _ Hm) as [Hfree ->].
  split; [intros k; now apply tmp_free_lookup|].
  split; [reflexivity|]. split; [reflexivity|].
  assert (Hpost : post_setup ro venv v w =
    let '(r2, w2) := os_rmdir tmp w1 in
    match r2 with
    | Err e => (Err e, w2)
    | Ok _ => match r with Ok _ => (Ok tt, w2) | Err e => (Err e, w2) end
    end).
  { unfold post_setup, bind at 1. rewrite Hm. cbv beta iota zeta. now rewrite Hc. }
  rewrite Hpost. unfold os_rmdir, bind, get_fs. rewrite Hd. split.
  - intros He. rewrite bool_decide_true.
    + destruct r; reflexivity.
    + apply map_empty. intros k. apply map_lookup_filter_None.
      destruct (fs w1 !! k) eqn:Hk; [right | now left].
      intros x _ [Hp Hne]. rewrite (He k Hp Hne) in Hk. discriminate.
  - intros (k & Hp & Hne & [x Hx]). rewrite bool_decide_false.
    + split; [reflexivity|]. unfold is_dir in Hd.
      destruct (fs w1 !! tmp) as [[]|]; [discriminate | reflexivity | discriminate].
    + intros Hf. apply (map_filter_empty_not_lookup _ _ k x Hf); [split; assumption | exact Hx].
Qed.

Lemma post_setup_finally_witness :
  exists tmp w0 r w1,
  mkdtemp hb_world = (Ok tmp, w0) /\
  check_output (ok_run "")
    [APath (["venv"] ++ ["bin"; "python"])%list; AStr "-m"; AStr "pip"; AStr "install";
     AStr "--upgrade"; AStr "homebrew-pypi-poet"; AStr ("dbt==" ++ Version_str v0152)]
    (Some tmp) w0 = (r, w1) /\
  is_dir (fs w1) tmp = true /\
  ((forall k, tmp `prefix_of` k -> fs hb_world !! k = None) /\
   fs w0 = <[tmp := Dir]> (fs hb_world) /\ trace w0 = (trace hb_world ++ [EMkdir tmp])%list /\
   ((forall k, tmp `prefix_of` k -> k <> tmp -> fs w1 !! k = None) ->
    post_setup (ok_run "") ["venv"] v0152 hb_world =
      (match r with Ok _ => Ok tt | Err e => Err e end,
       mk_world (delete tmp (fs w1)) (trace w1 ++ [ERmdir tmp])%list)) /\
   ((exists k, tmp `prefix_of` k /\ k <> tmp /\ is_Some (fs w1 !! k)) ->
    post_setup (ok_run "") ["venv"] v0152 hb_world =
      (Err (OSError "[Errno 39] Directory not empty"), w1) /\
    fs w1 !! tmp = Some Dir)).
Proof.
  do 4 eexists.
  refine (conj eq_refl (conj eq_refl (conj eq_refl
    (post_setup_finally (ok_run "") ["venv"] v0152 hb_world _ _ _ _ eq_refl eq_refl eq_refl)))).
Defined.

Lemma check_output_version_arg_witness :
  (exists v, In (AVersion v) [AStr "bumpversion"; AStr "--new-version"; AVersion v0152]) /\
  check_output (ok_run "") [AStr "bumpversion"; AStr "--new-version"; AVersion v0152] (Some ["dbt"])
    dist_world =
    (Err (TypeError "expected str, bytes or os.PathLike object, not Version"), dist_world).
Proof.
  assert (H : exists v, In (AVersion v) [AStr "bumpversion"; AStr "--new-version"; AVersion v0152])
    by (exists v0152; simpl; tauto).
  split; [exact H|].
  apply (proj1 (check_output_version_arg (ok_run "") _ (Some ["dbt"]) dist_world)). exact H.
Defined.

Lemma title_lower_tag_witness :
  is_lower "r"%char = true /\ all_chars is_lower "c" = true /\
  title "rc" = String (upper "r"%char) "c".
Proof.
  split; [reflexivity|]. split; [reflexivity|].
  apply title_lower_tag; reflexivity.
Defined.

Lemma extract_parts_lines_witness :
  Forall (fun l => strip l <> resource_dbt_do) (split_nl "url x") /\
  _extract_parts "url x" = [].
Proof.
  assert (H : Forall (fun l => strip l <> resource_dbt_do) (split_nl "url x")).
  { constructor; [|constructor]. intros E. vm_compute in E. discriminate E. }
  split; [exact H|]. exact (proj2 (extract_parts_lines "url x") H).
Defined.

Lemma homebrew_class_name_collision_witness :
  prerelease (mk_Version "1.11.0" 1 11 0 None None) =
    prerelease (mk_Version "11.1.0" 11 1 0 None None) /\
  num (mk_Version "1.11.0" 1 11 0 None None) = num (mk_Version "11.1.0" 11 1 0 None None) /\
  homebrew_class_name (mk_Version "1.11.0" 1 11 0 None None) =
    homebrew_class_name (mk_Version "11.1.0" 11 1 0 None None).
Proof.
  split; [reflexivity|]. split; [reflexivity|].
  apply (proj1 homebrew_class_name_collision); reflexivity.
Defined.

(* ------------------------------------------------------------------ *)
(** ** The order of the builds *)

Lemma runs_of_app (l1 l2 : list event) : runs_of (l1 ++ l2) = (runs_of l1 ++ runs_of l2)%list.
Proof. induction l1 as [|[] l1 IH]; simpl; try rewrite IH; reflexivity. Qed.

Lemma runs_of_no_run (l : list event) : Forall no_run l -> runs_of l = [].
Proof. induction 1 as [|[] l He _ IH]; simpl; easy. Qed.

Lemma clean_dist_no_run (p : path) (make : bool) : grows no_run (clean_dist p make).
Proof.
  unfold clean_dist. eapply grows_bind; [apply grows_path_exists | intros e].
  eapply grows_bind; [destruct e; [eapply grows_rmtree; intros; exact I | apply grows_ret] | intros _].
  eapply grows_bind; [destruct make; [eapply grows_makedirs_aux; intros; exact I | apply grows_ret] | intros _].
  apply grows_ret.
Qed.

Lemma clean_dist_ret (p : path) (make : bool) (w : world) (d : path) (w' : world) :
  clean_dist p make w = (Ok d, w') -> d = (p ++ ["dist"])%list.
Proof.
  unfold clean_dist. intros H.
  apply bind_ok_inv in H as (e & w1 & _ & H).
  apply bind_ok_inv in H as (u & w2 & _ & H).
  apply bind_ok_inv in H as (u' & w3 & _ & H).
  unfold ret in H. congruence.
Qed.

Lemma shutil_copy_no_run (src dst : path) : grows no_run (shutil_copy src dst).
Proof.
  unfold shutil_copy. eapply grows_bind; [apply grows_get_fs | intros f].
  destruct (f !! src) as [[c|]|]; try apply grows_raise. cbv zeta.
  destruct (negb _); [apply grows_raise|]. destruct (is_dir _ _); [apply grows_raise|].
  eapply grows_bind; [apply grows_log; exact I | intros _]. apply grows_set_fs.
Qed.

Lemma copy_all_no_run (pkgs : list path) (dst : path) : grows no_run (copy_all pkgs dst).
Proof.
  induction pkgs as [|q pkgs IH]; simpl; [apply grows_ret|].
  eapply grows_bind; [apply shutil_copy_no_run | intros _]. exact IH.
Qed.

Lemma build_pypi_package_trace
    (ro : world -> list string -> option path -> proc_outcome * fsys)
    (p : path) (w : world) (u : unit) (w' : world) :
  build_pypi_package ro p w = (Ok u, w') -> trace w' = (trace w ++ [ERun build_argv (Some p)])%list.
Proof.
  unfold build_pypi_package. intros H.
  apply bind_ok_inv in H as (o & w1 & Hc & Hr). unfold ret in Hr. inversion Hr; subst.
  refine (check_output_ok_trace ro _ build_argv _ _ _ _ _ Hc). reflexivity.
Qed.

Lemma build_subpackages_runs
    (ro : world -> list string -> option path -> proc_outcome * fsys)
    (d : path) (l : list path) :
  forall acc w res w', build_subpackages ro d l acc w = (Ok res, w') ->
  exists ev, trace w' = (trace w ++ ev)%list /\
    runs_of ev = map (fun sp => (build_argv, Some (d ++ sp)%list)) l.
Proof.
  induction l as [|sp l IH]; intros acc w res w' H.
  - unfold build_subpackages, ret in H. inversion H; subst. exists []. now rewrite app_nil_r.
  - cbn [build_subpackages] in H.
    apply bind_ok_inv in H as (sd & w1 & H1 & H).
    destruct (clean_dist_no_run _ _ _ _ _ H1) as (l1 & T1 & F1).
    apply bind_ok_inv in H as (u & w2 & H2 & H). apply build_pypi_package_trace in H2.
    apply bind_ok_inv in H as (pk & w3 & H3 & H).
    unfold _all_packages_in in H3. inversion H3; subst w3.
    destruct (IH _ _ _ _ H) as (ev & T & R).
    exists (l1 ++ [ERun build_argv (Some (d ++ sp)%list)] ++ ev)%list. split.
    + rewrite T, H2, T1. now rewrite <- !app_assoc.
    + rewrite !runs_of_app, (runs_of_no_run l1 F1), R. reflexivity.
Qed.

(** A successful [build_pypi_packages] returns [dist] under the dbt path,
    and the processes it starts are the builds of the five subpackages,
    in the order of [_SUBPACKAGES], then the build of dbt itself. *)
Theorem build_pypi_packages_order
    (ro : world -> list string -> option path -> proc_outcome * fsys)
    (d : path) (w : world) (dist : path) (w' : world) :
  build_pypi_packages ro d w = (Ok dist, w') ->
  dist = (d ++ ["dist"])%list /\
  exists ev, trace w' = (trace w ++ ev)%list /\
    runs_of ev =
      (map (fun sp => (build_argv, Some (d ++ sp)%list)) _SUBPACKAGES ++ [(build_argv, Some d)])%list.
Proof.
  unfold build_pypi_packages. intros H.
  apply bind_ok_inv in H as (d0 & w1 & H1 & H).
  pose proof (clean_dist_ret _ _ _ _ _ H1) as Hd0.
  destruct (clean_dist_no_run _ _ _ _ _ H1) as (l1 & T1 & F1).
  apply bind_ok_inv in H as (sub & w2 & H2 & H).
  destruct (build_subpackages_runs _ _ _ _ _ _ _ H2) as (l2 & T2 & R2).
  apply bind_ok_inv in H as (u & w3 & H3 & H). apply build_pypi_package_trace in H3.
  apply bind_ok_inv in H as (u' & w4 & H4 & H).
  destruct (copy_all_no_run _ _ _ _ _ H4) as (l4 & T4 & F4).
  unfold ret in H. inversion H; subst. split; [reflexivity|].
  exists (l1 ++ l2 ++ [ERun build_argv (Some d)] ++ l4)%list. split.
  - rewrite T4, H3, T2, T1. now rewrite <- !app_assoc.
  - rewrite !runs_of_app, (runs_of_no_run l1 F1), (runs_of_no_run l4 F4), R2.
    reflexivity.
Qed.

Lemma build_pypi_packages_order_witness :
  exists dist w', build_pypi_packages (ok_run "") ["dbt"] dist_world = (Ok dist, w') /\
  dist = (["dbt"] ++ ["dist"])%list /\
  exists ev, trace w' = (trace dist_world ++ ev)%list /\
    runs_of ev =
      (map (fun sp => (build_argv, Some (["dbt"] ++ sp)%list)) _SUBPACKAGES ++
       [(build_argv, Some ["dbt"])])%list.
Proof.
  eexists. eexists.
  refine (conj eq_refl (build_pypi_packages_order (ok_run "") ["dbt"] dist_world _ _ eq_refl)).
Defined.

(* ------------------------------------------------------------------ *)
(** ** An interrupt at the confirmation prompt *)

Section BuildEvents.

Variable run_oracle : world -> list string -> option path -> proc_outcome * fsys.
Variable Q : event -> Prop.

Hypothesis Q_build : forall c, Q (ERun build_argv c).
Hypothesis Q_rmtree : forall p, Q (ERmtree p).
Hypothesis Q_copy : forall p q, Q (ECopy p q).

Lemma grows_check_output_argv (cmd : list arg) (argv : list string) (cwd : option path) :
  args_to_argv cmd = Ok argv -> Q (ERun argv cwd) -> grows Q (check_output run_oracle cmd cwd).
Proof.
  intros Ha Hq. unfold check_output. rewrite Ha.
  intros w r w' E. destruct (run_oracle w argv cwd) as [o f'].
  exists [ERun argv cwd]. split; [|constructor; [exact Hq | constructor]].
  destruct o as [[|c] out|msg]; inversion E; reflexivity.
Qed.

Lemma grows_clean_dist_keep (p : path) : grows Q (clean_dist p false).
Proof.
  unfold clean_dist. eapply grows_bind; [apply grows_path_exists | intros e].
  eapply grows_bind; [destruct e; [eapply grows_rmtree; exact Q_rmtree | apply grows_ret] | intros _].
  eapply grows_bind; [apply grows_ret | intros _]. apply grows_ret.
Qed.

Lemma grows_build_pypi_package (p : path) : grows Q (build_pypi_package run_oracle p).
Proof.
  unfold build_pypi_package. eapply grows_bind; [|intros; apply grows_ret].
  eapply grows_check_output_argv; [reflexivity | apply Q_build].
Qed.

Lemma grows_all_packages_in (p : path) : grows Q (_all_packages_in p).
Proof. apply grows_nil. intros w r w' E. now inversion E. Qed.

Lemma grows_build_subpackages (d : path) (l acc : list path) :
  grows Q (build_subpackages run_oracle d l acc).
Proof.
  revert acc. induction l as [|sp l IH]; intros acc; cbn [build_subpackages]; [apply grows_ret|].
  eapply grows_bind; [apply grows_clean_dist_keep | intros sd].
  eapply grows_bind; [apply grows_build_pypi_package | intros _].
  eapply grows_bind; [apply grows_all_packages_in | intros pk]. apply IH.
Qed.

Lemma grows_shutil_copy (src dst : path) : grows Q (shutil_copy src dst).
Proof.
  unfold shutil_copy. eapply grows_bind; [apply grows_get_fs | intros f].
  destruct (f !! src) as [[c|]|]; try apply grows_raise. cbv zeta.
  destruct (negb _); [apply grows_raise|]. destruct (is_dir _ _); [apply grows_raise|].
  eapply grows_bind; [apply grows_log, Q_copy | intros _]. apply grows_set_fs.
Qed.

Lemma grows_copy_all (pkgs : list path) (dst : path) : grows Q (copy_all pkgs dst).
Proof.
  induction pkgs as [|q pkgs IH]; simpl; [apply grows_ret|].
  eapply grows_bind; [apply grows_shutil_copy | intros _]. exact IH.
Qed.

Lemma grows_build_pypi_packages (d : path) : grows Q (build_pypi_packages run_oracle d).
Proof.
  unfold build_pypi_packages.
  eapply grows_bind; [apply grows_clean_dist_keep | intros dist].
  eapply grows_bind; [apply grows_build_subpackages | intros sub].
  eapply grows_bind; [apply grows_build_pypi_package | intros _].
  eapply grows_bind; [apply grows_copy_all | intros _]. apply grows_ret.
Qed.

End BuildEvents.

Lemma args_to_argv_strs (pkgs : list path) :
  args_to_argv (map (fun p => AStr (path_str p)) pkgs) = Ok (map path_str pkgs).
Proof. induction pkgs as [|q pkgs IH]; simpl; [reflexivity | now rewrite IH]. Qed.

Lemma grows_upload_test (ro : world -> list string -> option path -> proc_outcome * fsys)
    (dist : path) : grows before_confirm (upload_pypi_packages ro dist true).
Proof.
  unfold upload_pypi_packages. eapply grows_bind; [apply grows_all_packages_in | intros pkgs].
  eapply grows_bind; [|intros; apply grows_ret].
  eapply grows_check_output_argv.
  - simpl. rewrite args_to_argv_strs. reflexivity.
  - right. eexists. reflexivity.
Qed.

(** When the operator interrupts at the prompt after the upload to the
    test index, the release ends in an error, and up to then it has only
    built the packages, cleaned and filled [dist], uploaded to the test
    index and prompted: no upload to the production index, no virtual
    environment, no formula written and no other process. *)
Theorem release_stages_interrupted
    (ro : world -> list string -> option path -> proc_outcome * fsys)
    (io : world -> string -> option string) (vo : world -> path -> result fsys)
    (args : Arguments) (w : world) (r : result unit) (w' : world) :
  (forall w0 msg, io w0 msg = None) ->
  release_stages ro io vo args w = (r, w') ->
  (exists e, r = Err e) /\
  exists l, trace w' = (trace w ++ l)%list /\ Forall before_confirm l.
Proof.
  intros Hio H. unfold release_stages in H.
  destruct (build_pypi_packages ro (args_path args) w) as [[dist|e] w1] eqn:H1.
  2:{ rewrite (bind_err _ _ _ _ _ H1) in H. inversion H; subst. split; [now exists e|].
      eapply (grows_build_pypi_packages ro before_confirm); eauto.
      - intros c. now left.
      - intros; exact I.
      - intros; exact I. }
  destruct (grows_build_pypi_packages ro before_confirm (fun c => or_introl eq_refl)
              (fun _ => I) (fun _ _ => I) _ _ _ _ H1) as (l1 & T1 & F1).
  rewrite (bind_ok _ _ _ _ _ H1) in H.
  destruct (upload_pypi_packages ro dist true w1) as [[u|e] w2] eqn:H2.
  2:{ rewrite (bind_err _ _ _ _ _ H2) in H. inversion H; subst. split; [now exists e|].
      destruct (grows_upload_test ro dist _ _ _ H2) as (l2 & T2 & F2).
      exists (l1 ++ l2)%list. split; [rewrite T2, T1; symmetry; apply app_assoc | now apply Forall_app]. }
  destruct (grows_upload_test ro dist _ _ _ H2) as (l2 & T2 & F2).
  rewrite (bind_ok _ _ _ _ _ H2) in H.
  unfold bind at 1, input in H. rewrite Hio in H. inversion H; subst. clear H.
  split; [now exists KeyboardInterrupt|].
  eexists. split.
  - cbn [trace]. rewrite T2, T1, <- !app_assoc. reflexivity.
  - apply Forall_app. split; [exact F1|]. apply Forall_app. split; [exact F2|].
    constructor; [exact I | constructor].
Qed.

Lemma release_stages_interrupted_witness :
  exists r w',
  (forall w0 msg, (fun (_ : world) (_ : string) => @None string) w0 msg = None) /\
  release_stages (ok_run "") (fun _ _ => None) ok_venv sample_args dist_world = (r, w') /\
  (exists e, r = Err e) /\
  exists l, trace w' = (trace dist_world ++ l)%list /\ Forall before_confirm l.
Proof.
  eexists. eexists.
  assert (Hio : forall w0 msg, (fun (_ : world) (_ : string) => @None string) w0 msg = None)
    by (intros; reflexivity).
  refine (conj Hio (conj eq_refl _)).
  exact (release_stages_interrupted (ok_run "") (fun _ _ => None) ok_venv sample_args dist_world
           _ _ Hio eq_refl).
Defined.

(* ------------------------------------------------------------------ *)
(** ** Uploads and the Homebrew tests *)

Lemma check_output_trace (ro : world -> list string -> option path -> proc_outcome * fsys)
    (cmd : list arg) (argv : list string) (cwd : option path) (w : world) r (w' : world) :
  check_output ro cmd cwd w = (r, w') -> args_to_argv cmd = Ok argv ->
  trace w' = (trace w ++ [ERun argv cwd])%list.
Proof.
  intros H Ha. revert H. unfold check_output. rewrite Ha. destruct (ro w argv cwd) as [o f'].
  destruct o as [[|c] o|msg]; intros H; inversion H; reflexivity.
Qed.

Lemma bind_ret_world {A B} (m : M A) (b : B) (w : world) r (w' : world) :
  bind m (fun _ => ret b) w = (r, w') -> exists r0, m w = (r0, w').
Proof.
  unfold bind, ret. destruct (m w) as [[a|e] w1]; intros H; inversion H; subst; eauto.
Qed.

(** [upload_pypi_packages] starts one [twine upload] (with
    [--repository pypitest] for the test index) whose files are the
    [.tar.gz] and [.whl] entries directly in the dist directory. *)
Theorem upload_pypi_packages_files
    (ro : world -> list string -> option path -> proc_outcome * fsys)
    (dist : path) (test : bool) (w : world) (r : result unit) (w' : world) :
  upload_pypi_packages ro dist test w = (r, w') ->
  exists pkgs,
    (forall q, q ∈ pkgs <->
       exists n, q = (dist ++ [n])%list /\ is_Some (fs w !! q) /\
         ((exists stem, n = stem ++ ".tar.gz") \/ (exists stem, n = stem ++ ".whl"))) /\
    trace w' = (trace w ++
      [ERun ("twine" :: "upload" :: (if test then ["--repository"; "pypitest"] else [])
             ++ map path_str pkgs)%list None])%list.
Proof.
  unfold upload_pypi_packages, bind at 1, _all_packages_in. cbv zeta. intros H.
  eexists. split; [intros q; apply packages_spec|].
  destruct (bind_ret_world _ _ _ _ _ H) as [r0 H0].
  refine (check_output_trace ro _ _ _ _ _ _ H0 _).
  destruct test; cbn [Datatypes.app args_to_argv py_str_of_arg]; rewrite args_to_argv_strs;
    reflexivity.
Qed.

Lemma upload_pypi_packages_files_witness :
  exists r w', upload_pypi_packages (ok_run "") ["dbt"; "dist"] true dist_world = (r, w') /\
  exists pkgs,
    (forall q, q ∈ pkgs <->
       exists n, q = (["dbt"; "dist"] ++ [n])%list /\ is_Some (fs dist_world !! q) /\
         ((exists stem, n = stem ++ ".tar.gz") \/ (exists stem, n = stem ++ ".whl"))) /\
    trace w' = (trace dist_world ++
      [ERun ("twine" :: "upload" :: ["--repository"; "pypitest"] ++ map path_str pkgs)%list
            None])%list.
Proof.
  eexists. eexists.
  refine (conj eq_refl (upload_pypi_packages_files (ok_run "") ["dbt"; "dist"] true dist_world
                          _ _ eq_refl)).
Defined.

(** [homebrew_run_tests] starts [brew uninstall], [brew install],
    [brew test] and [brew audit] in this order and stops at the first
    that fails: the processes it starts are a non-empty prefix of the
    four, all four when it succeeds. *)
Theorem homebrew_run_tests_order
    (ro : world -> list string -> option path -> proc_outcome * fsys)
    (fp : path) (w : world) (r : result unit) (w' : world) :
  homebrew_run_tests ro fp w = (r, w') ->
  exists ev, trace w' = (trace w ++ ev)%list /\ ev <> [] /\
    ev `prefix_of` map (fun a => ERun a None)
      [["brew"; "uninstall"; "--force"; path_str fp]; ["brew"; "install"; path_str fp];
       ["brew"; "test"; "dbt"]; ["brew"; "audit"; "--strict"; "dbt"]] /\
    (r = Ok tt -> ev = map (fun a => ERun a None)
      [["brew"; "uninstall"; "--force"; path_str fp]; ["brew"; "install"; path_str fp];
       ["brew"; "test"; "dbt"]; ["brew"; "audit"; "--strict"; "dbt"]]).
Proof.
  unfold homebrew_run_tests. intros H.
  destruct (check_output ro [AStr "brew"; AStr "uninstall"; AStr "--force"; APath fp] None w)
    as [[o1|e1] w1] eqn:E1;
    pose proof (check_output_trace ro _ _ _ _ _ _ E1 eq_refl) as T1.
  2:{ rewrite (bind_err _ _ _ _ _ E1) in H. inversion H; subst.
      eexists. split; [exact T1|]. split; [discriminate|]. split; [eexists; reflexivity|].
      discriminate. }
  rewrite (bind_ok _ _ _ _ _ E1) in H.
  destruct (check_output ro [AStr "brew"; AStr "install"; APath fp] None w1)
    as [[o2|e2] w2] eqn:E2;
    pose proof (check_output_trace ro _ _ _ _ _ _ E2 eq_refl) as T2.
  2:{ rewrite (bind_err _ _ _ _ _ E2) in H. inversion H; subst.
      eexists. split; [rewrite T2, T1, <- app_assoc; reflexivity|].
      split; [discriminate|]. split; [eexists; reflexivity|]. discriminate. }
  rewrite (bind_ok _ _ _ _ _ E2) in H.
  destruct (check_output ro [AStr "brew"; AStr "test"; AStr "dbt"] None w2)
    as [[o3|e3] w3] eqn:E3;
    pose proof (check_output_trace ro _ _ _ _ _ _ E3 eq_refl) as T3.
  2:{ rewrite (bind_err _ _ _ _ _ E3) in H. inversion H; subst.
      eexists. split; [rewrite T3, T2, T1, <- !app_assoc; reflexivity|].
      split; [discriminate|]. split; [eexists; reflexivity|]. discriminate. }
  rewrite (bind_ok _ _ _ _ _ E3) in H.
  destruct (bind_ret_world _ _ _ _ _ H) as [r4 E4].
  pose proof (check_output_trace ro _ _ _ _ _ _ E4 eq_refl) as T4.
  eexists. split; [rewrite T4, T3, T2, T1, <- !app_assoc; reflexivity|].
  split; [discriminate|]. split; [exists []; reflexivity|]. intros _. reflexivity.
Qed.

Lemma homebrew_run_tests_order_witness :
  exists r w', homebrew_run_tests (ok_run "") ["hb"; "Formula"; "dbt.rb"] hb_world = (r, w') /\
  exists ev, trace w' = (trace hb_world ++ ev)%list /\ ev <> [] /\
    ev `prefix_of` map (fun a => ERun a None)
      [["brew"; "uninstall"; "--force"; path_str ["hb"; "Formula"; "dbt.rb"]];
       ["brew"; "install"; path_str ["hb"; "Formula"; "dbt.rb"]];
       ["brew"; "test"; "dbt"]; ["brew"; "audit"; "--strict"; "dbt"]] /\
    (r = Ok tt -> ev = map (fun a => ERun a None)
      [["brew"; "uninstall"; "--force"; path_str ["hb"; "Formula"; "dbt.rb"]];
       ["brew"; "install"; path_str ["hb"; "Formula"; "dbt.rb"]];
       ["brew"; "test"; "dbt"]; ["brew"; "audit"; "--strict"; "dbt"]]).
Proof.
  eexists. eexists.
  refine (conj eq_refl (homebrew_run_tests_order (ok_run "") ["hb"; "Formula"; "dbt.rb"] hb_world
                          _ _ eq_refl)).
Defined.
